(** * express-utils: request validation, multipart extraction, SSE channel

    A shallow embedding of the helpers of [@xcvzmoon/express-utils]:

    - [readValidatedParams] / [readValidatedQuery]
      (src/read-validated-params.ts, src/read-validated-query.ts),
    - [readMultipartFormData] (busboy) and [getMultipartFormData]
      (@fastify/busboy) (src/read-multipart-form-data.ts,
      src/get-multipart-form-data.ts),
    - [createServerSentEvent] (src/create-server-sent-event.ts).

    JavaScript strings are modelled as [string] (one character per code
    unit), buffers as lists of bytes, the header object as a finite map from header names to values,
    arrays updated by index as lists with stdpp's lookup and insert.
    Exceptions are an explicit [Throw] completion; promises are explicit
    three-state values. *)

From Stdlib Require Import ZArith Ascii String List Bool Lia.
From stdpp Require Import base option list gmap strings.
Import ListNotations.

Local Open Scope string_scope.
Local Open Scope list_scope.

(* ===================================================================== *)
(** ** JavaScript values and completions *)
(* ===================================================================== *)

Module Js.

(** The values the helpers pass around without inspecting them. *)
#[warnings="-register-all"] Inductive JsVal : Type :=
| JUndefined
| JNull
| JBool (b : bool)
| JNum (n : Z)
| JStr (s : string)
| JArr (xs : list JsVal)
| JObj (fields : list (string * JsVal)).

(** [new Error(message, { cause })]. *)
Record JsError : Type := new_Error { message : string; cause : JsVal }.

(** A call either returns or throws. *)
Inductive Completion (A : Type) : Type :=
| Return (a : A)
| Throw (e : JsError).
Arguments Return {A} a.
Arguments Throw {A} e.

(** Truthiness of a string: non-empty. *)
Definition truthy (s : string) : bool :=
  match s with EmptyString => false | String _ _ => true end.

(** A Node.js [Buffer]. *)
Definition Buffer : Type := list Byte.byte.

(** The part of an Express [Request] the helpers read: the header
    object, the route params, the parsed query, and the readable body
    stream (the chunks it would deliver when piped). *)
Record Request : Type := mkRequest {
  headers : gmap string string;
  params : JsVal;
  query : JsVal;
  stream : list Buffer
}.

End Js.
Import Js.

(* ===================================================================== *)
(** ** Schema validation: readValidatedParams, readValidatedQuery *)
(* ===================================================================== *)

Module Validate.

(** What the code reads of a Zod error: [error.message],
    [error.issues] (read by the callers in safe mode) and the standard
    [error.cause] property. *)
Record ZodError : Type := mkZodError {
  zmessage : string;
  issues : list JsVal;
  zcause : JsVal
}.

(** [z.ZodSafeParseResult]: [{ success: true, data }] or
    [{ success: false, error }]. *)
Inductive SafeParseResult : Type :=
| Success (data : JsVal)
| Failure (error : ZodError).

(** The duck-typed schema capability: [schema.safeParse(input)]. *)
Record Schema : Type := mkSchema { safeParse : JsVal -> SafeParseResult }.

(** [options?: { safe?: boolean }]. *)
Record Options : Type := mkOptions { safe : option bool }.

(** Truthiness of [options?.safe]. *)
Definition safe_requested (options : option Options) : bool :=
  match options with
  | Some o => match safe o with Some true => true | _ => false end
  | None => false
  end.

(** The union return type [z.infer<T> | z.ZodSafeParseResult<z.infer<T>>]. *)
Inductive Validated : Type :=
| Data (data : JsVal)
| Outcome (result : SafeParseResult).

Definition readValidatedParams (req : Request) (schema : Schema)
    (options : option Options) : Completion Validated :=
  let result := safeParse schema (params req) in
  if safe_requested options then Return (Outcome result)
  else match result with
       | Failure error =>
           let message := zmessage error in
           let cause := zcause error in
           Throw (new_Error message cause)
       | Success data => Return (Data data)
       end.

Definition readValidatedQuery (req : Request) (schema : Schema)
    (options : option Options) : Completion Validated :=
  let result := safeParse schema (query req) in
  if safe_requested options then Return (Outcome result)
  else match result with
       | Failure error =>
           let message := zmessage error in
           let cause := zcause error in
           Throw (new_Error message cause)
       | Success data => Return (Data data)
       end.

(** A small schema for examples: it accepts exactly the strings, and
    otherwise fails with an error that carries one issue and no
    [cause]. *)
Definition string_issue : JsVal :=
  JObj [("code", JStr "invalid_type"); ("expected", JStr "string")].

Definition string_error : ZodError :=
  {| zmessage := "Invalid input: expected string";
     issues := [string_issue];
     zcause := JUndefined |}.

Definition string_schema : Schema :=
  {| safeParse := fun v =>
       match v with
       | JStr _ => Success v
       | _ => Failure string_error
       end |}.

Definition request_with (v : JsVal) : Request :=
  {| headers := ∅; params := v; query := v; stream := [] |}.

End Validate.
Import Validate.

(* ===================================================================== *)
(** ** Server-sent events: createServerSentEvent *)
(* ===================================================================== *)

Module Sse.

(** The line feed, ['\n']. *)
Definition LF : ascii := "010"%char.
Definition nl : string := String LF "".

(** [s.split('\n')]: the pieces of [s] between separators; the empty
    string gives one empty piece. *)
Fixpoint split (s : string) (sep : ascii) : list string :=
  match s with
  | EmptyString => [""]
  | String c rest =>
      if Ascii.eqb c sep then "" :: split rest sep
      else match split rest sep with
           | line :: lines => String c line :: lines
           | [] => [String c ""]
           end
  end.

(** [lines.join(sep)]. *)
Definition join (lines : list string) (sep : string) : string :=
  String.concat sep lines.

Fixpoint has_char (c : ascii) (s : string) : bool :=
  match s with
  | EmptyString => false
  | String d rest => Ascii.eqb d c || has_char c rest
  end.

(** The calls the helper makes on the Express response, in order. *)
Inductive Call : Type :=
| SetHeader (name value : string)
| FlushHeaders
| Write (chunk encoding : string)
| Flush
| End (args : list JsVal).

(** The response as the helper sees it: the log of calls made on it,
    whether the optional [flushHeaders] and [flush] methods exist, and
    the transport's own [closed] property. *)
Record Response : Type := mkResponse {
  calls : list Call;
  has_flushHeaders : bool;
  has_flush : bool;
  res_closed : bool
}.

Definition call (c : Call) (res : Response) : Response :=
  {| calls := calls res ++ [c];
     has_flushHeaders := has_flushHeaders res;
     has_flush := has_flush res;
     res_closed := res_closed res |}.

(** [res.method?.()]. *)
Definition optional_call (present : bool) (c : Call) (res : Response)
    : Response :=
  if present then call c res else res.

(** The data property of the returned object; [push], [pushComment] and
    [close] are closures over [res] and are modelled as functions on
    the response. *)
Record Channel : Type := mkChannel { closed : bool }.

Definition createServerSentEvent (res : Response) : Response * Channel :=
  let res := call (SetHeader "Content-Type" "text/event-stream") res in
  let res := call (SetHeader "Cache-Control" "no-cache") res in
  let res := call (SetHeader "Connection" "keep-alive") res in
  let res := call (SetHeader "X-Accel-Buffering" "no") res in
  let res := optional_call (has_flushHeaders res) FlushHeaders res in
  (res, {| closed := res_closed res |}).

Definition push (chunk : string) (res : Response) : Response :=
  let res := call (Write chunk "utf8") res in
  optional_call (has_flush res) Flush res.

Definition comment_of (chunk : string) : string :=
  ((if truthy chunk
    then join (map (fun line => ": " ++ line) (split chunk LF)) nl
    else ":") ++ nl ++ nl)%string.

Definition pushComment (chunk : string) (res : Response) : Response :=
  let comment := comment_of chunk in
  let res := call (Write comment "utf8") res in
  optional_call (has_flush res) Flush res.

(** [close: res.end.bind(res)], called with no arguments. *)
Definition close (res : Response) : Response := call (End []) res.

(** The life of a channel: the response together with the object
    [createServerSentEvent] returned. *)
Record World : Type := mkWorld { res : Response; sse : Channel }.

Definition open (res0 : Response) : World :=
  let (r, ch) := createServerSentEvent res0 in {| res := r; sse := ch |}.

(** What can happen afterwards: the caller uses the channel, or the
    transport's own [closed] flag changes (peer disconnect, end of
    response). *)
Inductive Action : Type :=
| DoPush (chunk : string)
| DoPushComment (chunk : string)
| DoClose
| TransportClosed (b : bool).

Definition set_closed (b : bool) (r : Response) : Response :=
  {| calls := calls r;
     has_flushHeaders := has_flushHeaders r;
     has_flush := has_flush r;
     res_closed := b |}.

Definition act (w : World) (a : Action) : World :=
  match a with
  | DoPush chunk => {| res := push chunk (res w); sse := sse w |}
  | DoPushComment chunk => {| res := pushComment chunk (res w); sse := sse w |}
  | DoClose => {| res := close (res w); sse := sse w |}
  | TransportClosed b => {| res := set_closed b (res w); sse := sse w |}
  end.

Definition run (w : World) (acts : list Action) : World :=
  fold_left act acts w.

Definition sse_headers : list Call :=
  [ SetHeader "Content-Type" "text/event-stream";
    SetHeader "Cache-Control" "no-cache";
    SetHeader "Connection" "keep-alive";
    SetHeader "X-Accel-Buffering" "no" ].

Definition is_header_call (c : Call) : bool :=
  match c with
  | SetHeader _ _ | FlushHeaders => true
  | _ => false
  end.

Definition is_write (c : Call) : bool :=
  match c with Write _ _ => true | _ => false end.

Definition fresh_response (fh f cl : bool) : Response :=
  {| calls := []; has_flushHeaders := fh; has_flush := f; res_closed := cl |}.

(** The calls one use of the channel makes on a transport that has
    ([flush = true]) or lacks the optional [flush] method. *)
Definition action_calls (flush : bool) (a : Action) : list Call :=
  match a with
  | DoPush chunk =>
      Write chunk "utf8" :: (if flush then [Flush] else [])
  | DoPushComment chunk =>
      Write (comment_of chunk) "utf8" :: (if flush then [Flush] else [])
  | DoClose => [End []]
  | TransportClosed _ => []
  end.

Definition is_end (c : Call) : bool :=
  match c with End _ => true | _ => false end.

Definition is_close (a : Action) : bool :=
  match a with DoClose => true | _ => false end.

End Sse.
Import Sse.

(* ===================================================================== *)
(** ** Multipart extraction: readMultipartFormData, getMultipartFormData *)
(* ===================================================================== *)

Module Multipart.

(** A value passed to [reject] or emitted with an ['error'] event: an
    [Error] instance or anything else. *)
Inductive Thrown : Type :=
| ErrorObject (message : string)
| OtherValue (v : JsVal).

(** [error instanceof Error ? error : new Error('An error occurred ...')] *)
Definition wrap (error : Thrown) : Thrown :=
  match error with
  | ErrorObject _ => error
  | OtherValue _ =>
      ErrorObject "An error occurred while parsing multipart form data"
  end.

Inductive Promise (A : Type) : Type :=
| Pending
| Fulfilled (a : A)
| Rejected (e : Thrown).
Arguments Pending {A}.
Arguments Fulfilled {A} a.
Arguments Rejected {A} e.

(** [Promise.all(ps)] on the promises as they stand: fulfilled with all
    the values in array order when every promise is fulfilled, rejected
    when one is rejected, pending otherwise.  For promises that are
    already rejected when the call is made the reactions run in array
    order, so the first one in the array gives the reason; a promise
    rejected later gives the reason at that moment, when it is the only
    rejected one the call has seen ([react] below keeps the first
    result). *)
Fixpoint Promise_all {A : Type} (ps : list (Promise A)) : Promise (list A) :=
  match ps with
  | [] => Fulfilled []
  | Rejected e :: _ => Rejected e
  | Pending :: rest =>
      match Promise_all rest with
      | Rejected e => Rejected e
      | _ => Pending
      end
  | Fulfilled a :: rest =>
      match Promise_all rest with
      | Fulfilled values => Fulfilled (a :: values)
      | Rejected e => Rejected e
      | Pending => Pending
      end
  end.

Fixpoint first_settled {A : Type} (ps : list (Promise A)) : Promise A :=
  match ps with
  | [] => Pending
  | Pending :: rest => first_settled rest
  | p :: _ => p
  end.

(** The exported type [MultipartFormData]. *)
Record MultipartFormData : Type := mkMultipartFormData {
  name : string;
  filename : string;
  mimeType : string;
  buffer : Buffer
}.

(** [Buffer.concat(chunks)]. *)
Definition Buffer_concat (chunks : list Buffer) : Buffer := List.concat chunks.

(** [s.charCodeAt(i)]; [None] is [NaN]. *)
Definition charCodeAt (s : string) (i : nat) : option N :=
  option_map N_of_ascii (String.get i s).

(** [s.startsWith(p)]. *)
Definition startsWith (s p : string) : bool := String.prefix p s.

(** What the decoder (busboy, @fastify/busboy) emits, in order of
    emission.  Every ['file'] event comes with a fresh stream; streams
    are numbered by the order of their ['file'] events, and the events of
    stream [k] carry that number.  [F] is what a ['file'] event carries
    besides the stream. *)
Inductive Event (F : Type) : Type :=
| OnFile (f : F)
| OnField (fieldname value : string)
| OnData (k : nat) (chunk : Buffer)
| OnEnd (k : nat)
| OnStreamError (k : nat) (e : Thrown)
| OnFinish
| OnError (e : Thrown).
Arguments OnFile {F} f.
Arguments OnField {F} fieldname value.
Arguments OnData {F} k chunk.
Arguments OnEnd {F} k.
Arguments OnStreamError {F} k e.
Arguments OnFinish {F}.
Arguments OnError {F} e.

(** The decoder is an outside library.  Building it from the headers
    either throws or gives a decoder which, for the body piped into it,
    emits a sequence of events. *)
Inductive Construction (F : Type) : Type :=
| Throws (e : Thrown)
| Built (emit : list Buffer -> list (Event F)).
Arguments Throws {F} e.
Arguments Built {F} emit.

Definition Decoder (F : Type) : Type := gmap string string -> Construction F.

(** What the caller gets: the state of the promise the async function
    returned ([Fulfilled None] is [null]), and whether the request was
    piped into a decoder. *)
Record Run : Type := mkRun {
  settled : Promise (option (list MultipartFormData));
  piped : bool
}.

Definition await_files (p : Promise (list MultipartFormData))
    : Promise (option (list MultipartFormData)) :=
  match p with
  | Pending => Pending
  | Fulfilled files => Fulfilled (Some files)
  | Rejected e => Rejected e
  end.

(** The listeners both functions install, and the promises they build.
    One event is handled at a time, and the promise reactions it
    triggers run before the next event: every event is taken to be
    emitted in a turn of its own. *)
Section Listeners.

Context {F : Type}.

(** The object literal passed to [resolve] in the ['end'] listener. *)
Variable make : F -> Buffer -> MultipartFormData.

(** One entry of [promises], with what its listeners close over: the
    arguments of the ['file'] event and the [chunks] array. *)
Record Upload : Type := mkUpload {
  info : F;
  chunks : list Buffer;
  promise : Promise MultipartFormData
}.

(** [promises], the [Promise.all] calls made so far (each with the
    number of promises it was given), and the promise returned. *)
Record State : Type := mkState {
  promises : list Upload;
  joins : list nat;
  outer : Promise (list MultipartFormData)
}.

Definition init : State :=
  {| promises := []; joins := []; outer := Pending |}.

(** [Promise.all(promises).then(files => resolve(files)).catch(...)]
    for the call that took the first [n] promises. *)
Definition join_result (ps : list Upload) (n : nat)
    : Promise (list MultipartFormData) :=
  match Promise_all (map promise (take n ps)) with
  | Fulfilled files => Fulfilled files
  | Rejected error => Rejected (wrap error)
  | Pending => Pending
  end.

(** Run the reactions: the returned promise settles once, with the
    first [Promise.all] call that has settled. *)
Definition react (st : State) : State :=
  match outer st with
  | Pending =>
      {| promises := promises st;
         joins := joins st;
         outer := first_settled (map (join_result (promises st)) (joins st)) |}
  | _ => st
  end.

Definition set_promises (ps : list Upload) (st : State) : State :=
  {| promises := ps; joins := joins st; outer := outer st |}.

Definition handle (st : State) (ev : Event F) : State :=
  match ev with
  | OnFile f =>
      set_promises (promises st ++ [mkUpload f [] Pending]) st
  | OnField _ _ => st
  | OnData k chunk =>
      match promises st !! k with
      | Some u =>
          set_promises
            (<[k := mkUpload (info u) (chunks u ++ [chunk]) (promise u)]>
               (promises st)) st
      | None => st
      end
  | OnEnd k =>
      match promises st !! k with
      | Some u =>
          match promise u with
          | Pending =>
              let buffer := Buffer_concat (chunks u) in
              react (set_promises
                       (<[k := mkUpload (info u) (chunks u)
                                 (Fulfilled (make (info u) buffer))]>
                          (promises st)) st)
          | _ => st
          end
      | None => st
      end
  | OnStreamError k e =>
      match promises st !! k with
      | Some u =>
          match promise u with
          | Pending =>
              react (set_promises
                       (<[k := mkUpload (info u) (chunks u) (Rejected e)]>
                          (promises st)) st)
          | _ => st
          end
      | None => st
      end
  | OnFinish =>
      react {| promises := promises st;
               joins := joins st ++ [length (promises st)];
               outer := outer st |}
  | OnError e =>
      match outer st with
      | Pending =>
          {| promises := promises st; joins := joins st;
             outer := Rejected e |}
      | _ => st
      end
  end.

Definition listen (events : list (Event F)) : State :=
  fold_left handle events init.

End Listeners.

Arguments Upload F : clear implicits.
Arguments State F : clear implicits.

(** *** What a sequence of events says, read off the sequence itself *)

Section Traces.

Context {F : Type}.

(** The file parts in the order they were declared. *)
Definition declared (events : list (Event F)) : list F :=
  omap (fun ev => match ev with OnFile f => Some f | _ => None end) events.

(** The chunks stream [k] delivered, in arrival order. *)
Definition received (k : nat) (events : list (Event F)) : list Buffer :=
  omap (fun ev => match ev with
                  | OnData j chunk => if Nat.eqb j k then Some chunk else None
                  | _ => None
                  end) events.

(** How a stream, or the decoder, finished. *)
Inductive Ending : Type :=
| Ended
| Failed (e : Thrown).

Definition endings (k : nat) (events : list (Event F)) : list Ending :=
  omap (fun ev => match ev with
                  | OnEnd j => if Nat.eqb j k then Some Ended else None
                  | OnStreamError j e =>
                      if Nat.eqb j k then Some (Failed e) else None
                  | _ => None
                  end) events.

Definition decoder_endings (events : list (Event F)) : list Ending :=
  omap (fun ev => match ev with
                  | OnFinish => Some Ended
                  | OnError e => Some (Failed e)
                  | _ => None
                  end) events.

Definition is_nil {A : Type} (l : list A) : bool :=
  match l with [] => true | _ => false end.

(** The contract of Node streams the listeners rely on: a stream's
    events come after its ['file'] event and stop at its ['end'] or
    ['error']; the decoder emits ['finish'] or ['error'] at most once
    and declares no part afterwards. *)
Definition allowed (seen : list (Event F)) (ev : Event F) : bool :=
  match ev with
  | OnFile _ | OnField _ _ | OnFinish | OnError _ =>
      is_nil (decoder_endings seen)
  | OnData k _ | OnEnd k | OnStreamError k _ =>
      Nat.ltb k (length (declared seen)) && is_nil (endings k seen)
  end.

Fixpoint protocol_from (seen rest : list (Event F)) : bool :=
  match rest with
  | [] => true
  | ev :: rest' => allowed seen ev && protocol_from (seen ++ [ev]) rest'
  end.

Definition follows_protocol (events : list (Event F)) : bool :=
  protocol_from [] events.

End Traces.

(** *** What the listeners are expected to have built *)

Section Expected.

Context {F : Type}.
Variable make : F -> Buffer -> MultipartFormData.

(** The state of the promise of stream [k], read off the events. *)
Definition promise_of (f : F) (k : nat) (events : list (Event F))
    : Promise MultipartFormData :=
  match endings k events with
  | [] => Pending
  | Ended :: _ => Fulfilled (make f (Buffer_concat (received k events)))
  | Failed e :: _ => Rejected e
  end.

(** One record per declared file part, in declaration order, each
    holding all the bytes its stream delivered. *)
Definition records (events : list (Event F)) : list MultipartFormData :=
  imap (fun k f => make f (Buffer_concat (received k events)))
       (declared events).

(** How the returned promise stands with respect to [promises] once
    ['finish'] has been handled. *)
Definition outer_ok (st : State F) : Prop :=
  match Promise_all (map promise (promises st)) with
  | Pending => outer st = Pending
  | Fulfilled files => outer st = Fulfilled files
  | Rejected _ =>
      exists (j : nat) (e : Thrown),
        map promise (promises st) !! j = Some (Rejected e)
        /\ outer st = Rejected (wrap e)
  end.

(** The state of the listeners after a sequence of events that follows
    the protocol. *)
Record Inv (events : list (Event F)) (st : State F) : Prop := mkInv {
  inv_info : map info (promises st) = declared events;
  inv_upload :
    forall (k : nat) (u : Upload F),
      promises st !! k = Some u ->
      chunks u = received k events
      /\ promise u = promise_of (info u) k events;
  inv_outer :
    match decoder_endings events with
    | [] => joins st = [] /\ outer st = Pending
    | Ended :: _ => joins st = [length (promises st)] /\ outer_ok st
    | Failed e :: _ => outer st = Rejected e
    end
}.

End Expected.

(** *** Part promises nobody listens to *)

(** Handlers are attached to the part promises only by [Promise.all], in
    the ['finish'] listener, and only to the promises that are in the
    array at that time: promise [k] has a handler when some call took
    more than [k] promises. *)
Definition has_handler (calls_made : list nat) (k : nat) : bool :=
  existsb (fun n => Nat.ltb k n) calls_made.

(** The reasons of the part promises that are rejected and have no
    handler, in array order. *)
Definition rejected_without_handler {F : Type} (st : State F) : list Thrown :=
  omap (fun ku : nat * Upload F =>
          match promise (snd ku) with
          | Rejected e => if has_handler (joins st) (fst ku) then None else Some e
          | _ => None
          end)
       (imap pair (promises st)).

(** *** Events seen through what the listeners use of them *)

(** The three strings of a file part that end up in its record. *)
Record Part : Type := mkPart {
  part_name : string;
  part_filename : string;
  part_mimeType : string
}.

Definition record_of (p : Part) (buffer : Buffer) : MultipartFormData :=
  {| name := part_name p; filename := part_filename p;
     mimeType := part_mimeType p; buffer := buffer |}.

Definition map_event {F G : Type} (conv : F -> G) (ev : Event F) : Event G :=
  match ev with
  | OnFile f => OnFile (conv f)
  | OnField n v => OnField n v
  | OnData k chunk => OnData k chunk
  | OnEnd k => OnEnd k
  | OnStreamError k e => OnStreamError k e
  | OnFinish => OnFinish
  | OnError e => OnError e
  end.

Definition map_upload {F G : Type} (conv : F -> G) (u : Upload F) : Upload G :=
  {| info := conv (info u); chunks := chunks u; promise := promise u |}.

Definition map_state {F G : Type} (conv : F -> G) (st : State F) : State G :=
  {| promises := map (map_upload conv) (promises st);
     joins := joins st;
     outer := outer st |}.

(** *** The decoders' ['file'] events *)

Module Busboy.
(** busboy: [(name, file, info)] with [info.filename],
    [info.encoding], [info.mimeType]. *)
Record FileInfo : Type := mkFileInfo {
  filename : string;
  encoding : string;
  mimeType : string
}.
Record File : Type := mkFile { name : string; info : FileInfo }.
End Busboy.

Module FastifyBusboy.
(** @fastify/busboy:
    [(fieldname, stream, filename, transferEncoding, mimeType)]. *)
Record File : Type := mkFile {
  fieldname : string;
  filename : string;
  transferEncoding : string;
  mimeType : string
}.
End FastifyBusboy.

(** *** src/read-multipart-form-data.ts (busboy) *)

Module Read.

Definition getContentType (req : Request) : option string :=
  match headers req !! "content-type" with
  | None => None
  | Some contentType =>
      if negb (truthy contentType)
         || negb (bool_decide (charCodeAt contentType 0 = Some 109%N))
         || negb (startsWith contentType "multipart/form-data")
      then None
      else Some contentType
  end.

Definition make (f : Busboy.File) (buffer : Buffer) : MultipartFormData :=
  let name := Busboy.name f in
  let filename := Busboy.filename (Busboy.info f) in
  let mimeType := Busboy.mimeType (Busboy.info f) in
  {| name := name; filename := filename; mimeType := mimeType;
     buffer := buffer |}.

Definition part_of (f : Busboy.File) : Part :=
  {| part_name := Busboy.name f;
     part_filename := Busboy.filename (Busboy.info f);
     part_mimeType := Busboy.mimeType (Busboy.info f) |}.

Definition readMultipartFormData (busboy : Decoder Busboy.File)
    (req : Request) : Run :=
  match getContentType req with
  | None => {| settled := Fulfilled None; piped := false |}
  | Some contentType =>
      match busboy (headers req) with
      | Throws e => {| settled := Rejected e; piped := false |}
      | Built bb =>
          let events := bb (stream req) in
          {| settled := await_files (outer (listen make events));
             piped := true |}
      end
  end.

End Read.

(** *** src/get-multipart-form-data.ts (@fastify/busboy) *)

Module Get.

Definition getContentType (req : Request) : option string :=
  match headers req !! "content-type" with
  | None => None
  | Some contentType =>
      if negb (truthy contentType)
         || negb (bool_decide (charCodeAt contentType 0 = Some 109%N))
         || negb (startsWith contentType "multipart/form-data")
      then None
      else Some contentType
  end.

Definition make (f : FastifyBusboy.File) (buffer : Buffer)
    : MultipartFormData :=
  let name := FastifyBusboy.fieldname f in
  {| name := name;
     filename := FastifyBusboy.filename f;
     mimeType := FastifyBusboy.mimeType f;
     buffer := buffer |}.

Definition part_of (f : FastifyBusboy.File) : Part :=
  {| part_name := FastifyBusboy.fieldname f;
     part_filename := FastifyBusboy.filename f;
     part_mimeType := FastifyBusboy.mimeType f |}.

Definition getMultipartFormData (Busboy : Decoder FastifyBusboy.File)
    (req : Request) : Run :=
  match getContentType req with
  | None => {| settled := Fulfilled None; piped := false |}
  | Some contentType =>
      match Busboy (<["content-type" := contentType]> (headers req)) with
      | Throws e => {| settled := Rejected e; piped := false |}
      | Built busboy =>
          let events := busboy (stream req) in
          {| settled := await_files (outer (listen make events));
             piped := true |}
      end
  end.

End Get.

(** The two decoders deliver the same parts: building them from the
    same headers throws the same error or neither throws, and for the
    same body they emit the same events with the same field names,
    filenames, MIME types and chunks. *)
Definition same_delivery (busboy : Decoder Busboy.File)
    (Busboy : Decoder FastifyBusboy.File) : Prop :=
  forall h : gmap string string,
    match busboy h, Busboy h with
    | Throws e, Throws e' => e = e'
    | Built bb, Built fb =>
        forall body : list Buffer,
          map (map_event Read.part_of) (bb body)
          = map (map_event Get.part_of) (fb body)
    | _, _ => False
    end.

(** *** Example requests, decoders and bodies *)

Definition upload_request : Request :=
  {| headers :=
       {[ "content-type" := "multipart/form-data; boundary=----testboundary" ]};
     params := JUndefined;
     query := JUndefined;
     stream := [list_byte_of_string "----testboundary"] |}.

Definition json_request : Request :=
  {| headers := {[ "content-type" := "application/json" ]};
     params := JUndefined;
     query := JUndefined;
     stream := [list_byte_of_string "{}"] |}.

(** A decoder that emits a fixed sequence of events. *)
Definition scripted {F : Type} (events : list (Event F)) : Decoder F :=
  fun _ => Built (fun _ => events).

Definition hello_file : Busboy.File :=
  {| Busboy.name := "file";
     Busboy.info := {| Busboy.filename := "hello.txt";
                       Busboy.encoding := "7bit";
                       Busboy.mimeType := "text/plain" |} |}.

Definition bin_file : Busboy.File :=
  {| Busboy.name := "bin";
     Busboy.info := {| Busboy.filename := "data.bin";
                       Busboy.encoding := "7bit";
                       Busboy.mimeType := "application/octet-stream" |} |}.

Definition binary : Buffer := [Byte.x00; Byte.xff; Byte.x0a; Byte.x0d].

(** One non-file field and two file parts, the second one binary and
    delivered in two chunks. *)
Definition mixed_upload : list (Event Busboy.File) :=
  [ OnField "text" "some value";
    OnFile hello_file;
    OnData 0 (list_byte_of_string "Hello ");
    OnData 0 (list_byte_of_string "world");
    OnEnd 0;
    OnFile bin_file;
    OnData 1 [Byte.x00; Byte.xff];
    OnData 1 [Byte.x0a; Byte.x0d];
    OnEnd 1;
    OnFinish ].

Definition hello_file' : FastifyBusboy.File :=
  {| FastifyBusboy.fieldname := "file";
     FastifyBusboy.filename := "hello.txt";
     FastifyBusboy.transferEncoding := "7bit";
     FastifyBusboy.mimeType := "text/plain" |}.

Definition bin_file' : FastifyBusboy.File :=
  {| FastifyBusboy.fieldname := "bin";
     FastifyBusboy.filename := "data.bin";
     FastifyBusboy.transferEncoding := "binary";
     FastifyBusboy.mimeType := "application/octet-stream" |}.

Definition mixed_upload' : list (Event FastifyBusboy.File) :=
  [ OnField "text" "some value";
    OnFile hello_file';
    OnData 0 (list_byte_of_string "Hello ");
    OnData 0 (list_byte_of_string "world");
    OnEnd 0;
    OnFile bin_file';
    OnData 1 [Byte.x00; Byte.xff];
    OnData 1 [Byte.x0a; Byte.x0d];
    OnEnd 1;
    OnFinish ].

Definition hello_record : MultipartFormData :=
  {| name := "file"; filename := "hello.txt"; mimeType := "text/plain";
     buffer := list_byte_of_string "Hello world" |}.

Definition bin_record : MultipartFormData :=
  {| name := "bin"; filename := "data.bin";
     mimeType := "application/octet-stream"; buffer := binary |}.

Definition unexpected_end : Thrown := ErrorObject "Unexpected end of form".

(** The body ends inside the first file part: its stream and the decoder
    both report it. *)
Definition truncated_upload : list (Event Busboy.File) :=
  [ OnFile hello_file;
    OnData 0 (list_byte_of_string "Hel");
    OnStreamError 0 unexpected_end;
    OnError unexpected_end ].

Definition truncated_upload' : list (Event FastifyBusboy.File) :=
  [ OnFile hello_file';
    OnData 0 (list_byte_of_string "Hel");
    OnStreamError 0 unexpected_end;
    OnError unexpected_end ].

(** The second file part fails with a value that is no [Error], and the
    decoder finishes. *)
Definition failed_part_upload : list (Event Busboy.File) :=
  [ OnFile hello_file;
    OnFile bin_file;
    OnData 0 (list_byte_of_string "Hello world");
    OnStreamError 1 (OtherValue (JStr "aborted"));
    OnEnd 0;
    OnFinish ].

Definition failed_part_upload' : list (Event FastifyBusboy.File) :=
  [ OnFile hello_file';
    OnFile bin_file';
    OnData 0 (list_byte_of_string "Hello world");
    OnStreamError 1 (OtherValue (JStr "aborted"));
    OnEnd 0;
    OnFinish ].

(** Two fields and no file part. *)
Definition fields_only_upload : list (Event Busboy.File) :=
  [ OnField "title" "report"; OnField "text" "some value"; OnFinish ].

Definition fields_only_upload' : list (Event FastifyBusboy.File) :=
  [ OnField "title" "report"; OnField "text" "some value"; OnFinish ].

(** The same two parts as [mixed_upload], cut into other chunks and with
    the streams' events interleaved differently. *)
Definition rechunked_upload : list (Event Busboy.File) :=
  [ OnFile hello_file;
    OnData 0 (list_byte_of_string "Hello world");
    OnField "text" "some value";
    OnFile bin_file;
    OnData 1 [Byte.x00];
    OnData 1 [];
    OnEnd 0;
    OnData 1 [Byte.xff; Byte.x0a; Byte.x0d];
    OnFinish;
    OnEnd 1 ].




(** The applicability rule in the specification's words: the
    content-type header is present and begins with the literal
    [multipart/form-data]. *)
Definition applicable (req : Request) : bool :=
  match headers req !! "content-type" with
  | Some contentType => String.prefix "multipart/form-data" contentType
  | None => false
  end.

End Multipart.
Import Multipart.

(* ===================================================================== *)
(** * Theorems *)
(* ===================================================================== *)

Section ValidateFacts.

Variables (req : Request) (schema : Schema) (options : option Options).

Lemma query_safe_returns_result :
  safe_requested options = true ->
  readValidatedQuery req schema options
  = Return (Outcome (safeParse schema (query req))).
Proof. intros H. unfold readValidatedQuery. rewrite H. reflexivity. Qed.

Lemma params_safe_returns_result :
  safe_requested options = true ->
  readValidatedParams req schema options
  = Return (Outcome (safeParse schema (params req))).
Proof. intros H. unfold readValidatedParams. rewrite H. reflexivity. Qed.

End ValidateFacts.

(** C2. When the schema accepts the input, the unsafe mode returns exactly
    the value the schema's parse produced, and the safe mode returns the
    success outcome carrying that same value; for the query and for the
    params reader alike. *)
Theorem validated_accept_returns_parsed_value :
  forall (req : Request) (schema : Schema) (options : option Options)
         (v : JsVal),
    (safeParse schema (query req) = Success v ->
       (safe_requested options = false ->
          readValidatedQuery req schema options = Return (Data v))
       /\ (safe_requested options = true ->
          readValidatedQuery req schema options = Return (Outcome (Success v))))
    /\ (safeParse schema (params req) = Success v ->
       (safe_requested options = false ->
          readValidatedParams req schema options = Return (Data v))
       /\ (safe_requested options = true ->
          readValidatedParams req schema options = Return (Outcome (Success v)))).
Proof.
  intros req schema options v. split; intros Hok; split; intros Hmode.
  - unfold readValidatedQuery. rewrite Hmode, Hok. reflexivity.
  - rewrite query_safe_returns_result by assumption. rewrite Hok. reflexivity.
  - unfold readValidatedParams. rewrite Hmode, Hok. reflexivity.
  - rewrite params_safe_returns_result by assumption. rewrite Hok. reflexivity.
Qed.

Lemma validated_accept_returns_parsed_value_witness :
  readValidatedQuery (request_with (JStr "abc")) string_schema None
  = Return (Data (JStr "abc"))
  /\ readValidatedQuery (request_with (JStr "abc")) string_schema
       (Some {| safe := Some true |})
     = Return (Outcome (Success (JStr "abc")))
  /\ readValidatedParams (request_with (JStr "abc")) string_schema
       (Some {| safe := Some false |})
     = Return (Data (JStr "abc"))
  /\ readValidatedParams (request_with (JStr "abc")) string_schema
       (Some {| safe := Some true |})
     = Return (Outcome (Success (JStr "abc"))).
Proof.
  pose proof (validated_accept_returns_parsed_value
                (request_with (JStr "abc")) string_schema None (JStr "abc"))
    as [[Hq _] _].
  { reflexivity. }
  pose proof (validated_accept_returns_parsed_value
                (request_with (JStr "abc")) string_schema
                (Some {| safe := Some true |}) (JStr "abc"))
    as [[_ Hqs] [_ Hps]].
  { reflexivity. }
  { reflexivity. }
  pose proof (validated_accept_returns_parsed_value
                (request_with (JStr "abc")) string_schema
                (Some {| safe := Some false |}) (JStr "abc"))
    as [_ [Hp _]].
  { reflexivity. }
  split; [|split; [|split]].
  - apply Hq. reflexivity.
  - apply Hqs. reflexivity.
  - apply Hp. reflexivity.
  - apply Hps. reflexivity.
Defined.

(** C1 as stated fails on the cause: the code attaches the failure's own
    [cause] property, which for an error that carries only an issue list
    is [undefined], not the issue list.  Here the query [7] is rejected by
    the string schema, unsafe mode is selected, and no thrown error has the
    issue list as its cause. *)
Lemma unsafe_cause_is_not_issue_list :
  safeParse string_schema (query (request_with (JNum 7))) = Failure string_error
  /\ safe_requested None = false
  /\ readValidatedQuery (request_with (JNum 7)) string_schema None
     = Throw {| message := "Invalid input: expected string";
                cause := JUndefined |}
  /\ ~ (exists e : JsError,
          readValidatedQuery (request_with (JNum 7)) string_schema None = Throw e
          /\ message e = zmessage string_error
          /\ cause e = JArr (issues string_error)).
Proof.
  split; [reflexivity|]. split; [reflexivity|]. split; [reflexivity|].
  intros [e [Hthrow [_ Hcause]]].
  cbv in Hthrow. injection Hthrow as <-. discriminate Hcause.
Qed.

(** C1 (amended). When the schema rejects the input, the unsafe mode throws
    an error whose message is the failure's message and whose cause is the
    failure's own [cause] property, and the safe mode returns the failure
    outcome unchanged (so it does not throw); for the query and for the
    params reader alike. *)
Theorem validated_reject_throws_or_returns_failure :
  forall (req : Request) (schema : Schema) (options : option Options)
         (err : ZodError),
    (safeParse schema (query req) = Failure err ->
       (safe_requested options = false ->
          readValidatedQuery req schema options
          = Throw {| message := zmessage err; cause := zcause err |})
       /\ (safe_requested options = true ->
          readValidatedQuery req schema options
          = Return (Outcome (Failure err))))
    /\ (safeParse schema (params req) = Failure err ->
       (safe_requested options = false ->
          readValidatedParams req schema options
          = Throw {| message := zmessage err; cause := zcause err |})
       /\ (safe_requested options = true ->
          readValidatedParams req schema options
          = Return (Outcome (Failure err)))).
Proof.
  intros req schema options err. split; intros Hno; split; intros Hmode.
  - unfold readValidatedQuery. rewrite Hmode, Hno. reflexivity.
  - rewrite query_safe_returns_result by assumption. rewrite Hno. reflexivity.
  - unfold readValidatedParams. rewrite Hmode, Hno. reflexivity.
  - rewrite params_safe_returns_result by assumption. rewrite Hno. reflexivity.
Qed.

Lemma validated_reject_throws_or_returns_failure_witness :
  readValidatedQuery (request_with JUndefined) string_schema None
  = Throw {| message := zmessage string_error; cause := zcause string_error |}
  /\ readValidatedQuery (request_with JUndefined) string_schema
       (Some {| safe := Some true |})
     = Return (Outcome (Failure string_error))
  /\ readValidatedParams (request_with JUndefined) string_schema
       (Some {| safe := None |})
     = Throw {| message := zmessage string_error; cause := zcause string_error |}
  /\ readValidatedParams (request_with JUndefined) string_schema
       (Some {| safe := Some true |})
     = Return (Outcome (Failure string_error)).
Proof.
  pose proof (validated_reject_throws_or_returns_failure
                (request_with JUndefined) string_schema None string_error)
    as [[Hq _] _].
  { reflexivity. }
  pose proof (validated_reject_throws_or_returns_failure
                (request_with JUndefined) string_schema
                (Some {| safe := Some true |}) string_error)
    as [[_ Hqs] [_ Hps]].
  { reflexivity. }
  { reflexivity. }
  pose proof (validated_reject_throws_or_returns_failure
                (request_with JUndefined) string_schema
                (Some {| safe := None |}) string_error)
    as [_ [Hp _]].
  { reflexivity. }
  split; [|split; [|split]].
  - apply Hq. reflexivity.
  - apply Hqs. reflexivity.
  - apply Hp. reflexivity.
  - apply Hps. reflexivity.
Defined.

(* --------------------------------------------------------------------- *)
(** ** Facts about [split] and [join] *)
(* --------------------------------------------------------------------- *)

Lemma split_nonempty (s : string) (sep : ascii) : split s sep <> [].
Proof.
  destruct s as [|c rest]; simpl; [discriminate|].
  destruct (Ascii.eqb c sep); [discriminate|].
  destruct (split rest sep); discriminate.
Qed.

Lemma join_cons_cons (x y : string) (ys : list string) (sep : string) :
  join (x :: y :: ys) sep = (x ++ sep ++ join (y :: ys) sep)%string.
Proof. reflexivity. Qed.

(** Joining the pieces with the separator gives the string back. *)
Lemma join_split (s : string) (sep : ascii) :
  join (split s sep) (String sep "") = s.
Proof.
  induction s as [|c rest IH]; simpl; [reflexivity|].
  destruct (Ascii.eqb_spec c sep) as [->|Hne].
  - pose proof (split_nonempty rest sep) as Hnil.
    destruct (split rest sep) as [|line lines]; [contradiction|].
    rewrite join_cons_cons, IH. reflexivity.
  - pose proof (split_nonempty rest sep) as Hnil.
    destruct (split rest sep) as [|line lines]; [contradiction|].
    destruct lines as [|line' lines].
    + simpl in *. congruence.
    + rewrite join_cons_cons in IH. rewrite join_cons_cons.
      rewrite <- IH. reflexivity.
Qed.

(** No piece contains the separator. *)
Lemma split_no_sep (s : string) (sep : ascii) :
  Forall (fun line => has_char sep line = false) (split s sep).
Proof.
  induction s as [|c rest IH]; simpl.
  - constructor; [reflexivity|constructor].
  - destruct (Ascii.eqb c sep) eqn:Hc.
    + constructor; [reflexivity|exact IH].
    + destruct (split rest sep) as [|line lines].
      * constructor; [simpl; rewrite Hc; reflexivity|constructor].
      * inversion IH as [|? ? Hline Hlines]; subst.
        constructor; [simpl; rewrite Hc; exact Hline|exact Hlines].
Qed.

(* --------------------------------------------------------------------- *)
(** ** The SSE channel *)
(* --------------------------------------------------------------------- *)

Lemma calls_optional_call (present : bool) (c : Call) (r : Response) :
  calls (optional_call present c r)
  = calls r ++ (if present then [c] else []).
Proof. destruct present; simpl; [reflexivity|]. rewrite app_nil_r. reflexivity. Qed.

Lemma calls_push (chunk : string) (r : Response) :
  calls (push chunk r)
  = calls r ++ Write chunk "utf8" :: (if has_flush r then [Flush] else []).
Proof.
  unfold push. rewrite calls_optional_call. simpl.
  rewrite <- app_assoc. reflexivity.
Qed.

Lemma calls_pushComment (chunk : string) (r : Response) :
  calls (pushComment chunk r)
  = calls r
    ++ Write (comment_of chunk) "utf8" :: (if has_flush r then [Flush] else []).
Proof.
  unfold pushComment. rewrite calls_optional_call. simpl.
  rewrite <- app_assoc. reflexivity.
Qed.

(** C7. [pushComment text] writes exactly one chunk (followed by a flush
    when the transport has one): [":\n\n"] when [text] is empty, and
    otherwise the lines of [text] (the pieces between newlines: joined by
    newline they give [text] back and none contains a newline), each
    prefixed with [": "], rejoined with newline and followed by ["\n\n"];
    so ["heartbeat"] gives [": heartbeat\n\n"] and ["a\nb"] gives
    [": a\n: b\n\n"]. *)
Theorem pushComment_writes_one_comment_chunk :
  forall (text : string) (r : Response),
    (exists lines : list string,
        join lines nl = text
        /\ Forall (fun line => has_char LF line = false) lines
        /\ filter (fun c => is_write c) (calls (pushComment text r))
           = filter (fun c => is_write c) (calls r)
             ++ [Write (if String.eqb text "" then ":" ++ nl ++ nl
                        else join (map (fun line => ": " ++ line) lines) nl
                             ++ nl ++ nl)%string
                       "utf8"]
        /\ calls (pushComment text r)
           = calls r
             ++ Write (if String.eqb text "" then ":" ++ nl ++ nl
                       else join (map (fun line => ": " ++ line) lines) nl
                            ++ nl ++ nl)%string
                      "utf8"
                :: (if has_flush r then [Flush] else []))
    /\ comment_of "" = (":" ++ nl ++ nl)%string
    /\ comment_of "heartbeat" = (": heartbeat" ++ nl ++ nl)%string
    /\ comment_of ("a" ++ nl ++ "b") = (": a" ++ nl ++ ": b" ++ nl ++ nl)%string.
Proof.
  intros text r. split; [|repeat split].
  exists (split text LF).
  assert (Hcomment :
            comment_of text
            = (if String.eqb text "" then ":" ++ nl ++ nl
               else join (map (fun line => ": " ++ line) (split text LF)) nl
                    ++ nl ++ nl)%string).
  { unfold comment_of. destruct text; reflexivity. }
  split; [apply join_split|].
  split; [apply split_no_sep|].
  rewrite calls_pushComment, Hcomment. split; [|reflexivity].
  rewrite filter_app. f_equal.
  destruct (has_flush r); reflexivity.
Qed.

Lemma createServerSentEvent_calls (r : Response) :
  calls (fst (createServerSentEvent r))
  = calls r ++ sse_headers
    ++ (if has_flushHeaders r then [FlushHeaders] else []).
Proof.
  unfold createServerSentEvent. simpl. rewrite calls_optional_call. simpl.
  rewrite <- !app_assoc. reflexivity.
Qed.

Lemma open_res (r : Response) : res (open r) = fst (createServerSentEvent r).
Proof. reflexivity. Qed.

Lemma act_calls (w : World) (a : Action) :
  exists more : list Call,
    calls (res (act w a)) = calls (res w) ++ more
    /\ Forall (fun c => is_header_call c = false) more.
Proof.
  destruct a as [chunk|chunk| |b]; simpl.
  - rewrite calls_push. eexists; split; [reflexivity|].
    destruct (has_flush (res w)); repeat constructor.
  - rewrite calls_pushComment. eexists; split; [reflexivity|].
    destruct (has_flush (res w)); repeat constructor.
  - exists [End []]. split; [reflexivity|repeat constructor].
  - exists []. split; [rewrite app_nil_r; reflexivity|constructor].
Qed.

Lemma run_calls (acts : list Action) (w : World) :
  exists later : list Call,
    calls (res (run w acts)) = calls (res w) ++ later
    /\ Forall (fun c => is_header_call c = false) later.
Proof.
  revert w. induction acts as [|a acts IH]; intros w; simpl.
  - exists []. split; [rewrite app_nil_r; reflexivity|constructor].
  - destruct (IH (act w a)) as (later & Hl & Hf).
    destruct (act_calls w a) as (more & Hm & Hmf).
    exists (more ++ later). split.
    + unfold run in Hl |- *. simpl. rewrite Hl, Hm, <- app_assoc. reflexivity.
    + apply Forall_app. split; assumption.
Qed.

(** C8. Opening a channel makes exactly these calls on the response, in
    this order: the four [setHeader] calls (content type, cache control,
    connection, proxy buffering), then [flushHeaders] if and only if the
    transport has it; none of them is a write, and whatever the channel is
    used for afterwards comes after them and sets or flushes no header
    again. *)
Theorem open_sets_four_headers_then_flushes :
  forall (r : Response),
    calls (res (open r))
    = calls r
      ++ [ SetHeader "Content-Type" "text/event-stream";
           SetHeader "Cache-Control" "no-cache";
           SetHeader "Connection" "keep-alive";
           SetHeader "X-Accel-Buffering" "no" ]
      ++ (if has_flushHeaders r then [FlushHeaders] else [])
    /\ (In FlushHeaders (skipn (length (calls r)) (calls (res (open r))))
        <-> has_flushHeaders r = true)
    /\ Forall (fun c => is_write c = false)
              (skipn (length (calls r)) (calls (res (open r))))
    /\ forall acts : list Action,
        exists later : list Call,
          calls (res (run (open r) acts)) = calls (res (open r)) ++ later
          /\ Forall (fun c => is_header_call c = false) later.
Proof.
  intros r.
  assert (Hopen : calls (res (open r))
                  = calls r ++ sse_headers
                    ++ (if has_flushHeaders r then [FlushHeaders] else [])).
  { rewrite open_res. apply createServerSentEvent_calls. }
  split; [exact Hopen|].
  assert (Hskip : skipn (length (calls r)) (calls (res (open r)))
                  = sse_headers
                    ++ (if has_flushHeaders r then [FlushHeaders] else [])).
  { rewrite Hopen. rewrite skipn_app, skipn_all, Nat.sub_diag. reflexivity. }
  rewrite Hskip. split; [|split].
  - destruct (has_flushHeaders r); simpl; split; intros H.
    + reflexivity.
    + do 4 right. left. reflexivity.
    + repeat (destruct H as [H|H]; [discriminate H|]). destruct H.
    + discriminate H.
  - destruct (has_flushHeaders r); repeat constructor.
  - intros acts. apply run_calls.
Qed.

Lemma act_sse (w : World) (a : Action) : sse (act w a) = sse w.
Proof. destruct a; reflexivity. Qed.

Lemma run_sse (acts : list Action) (w : World) : sse (run w acts) = sse w.
Proof.
  unfold run. revert w.
  induction acts as [|a acts IH]; intros w; simpl; [reflexivity|].
  rewrite IH. apply act_sse.
Qed.

(** C9. The channel's [closed] is the transport's [closed] as it was when
    the channel was opened: whatever sequence of [push], [pushComment],
    [close] and changes of the transport's own flag follows, the value on
    the channel object stays that one; in particular it can differ from
    the transport's current flag. *)
Theorem channel_closed_is_open_time_snapshot :
  forall (r : Response) (acts : list Action),
    closed (sse (run (open r) acts)) = res_closed r
    /\ closed (sse (run (open (fresh_response true true false))
                        [DoPush "x"; TransportClosed true; DoClose]))
       = false
    /\ res_closed (res (run (open (fresh_response true true false))
                            [DoPush "x"; TransportClosed true; DoClose]))
       = true.
Proof.
  intros r acts. split; [|split; reflexivity].
  rewrite run_sse. unfold open, createServerSentEvent. simpl.
  destruct (has_flushHeaders r); reflexivity.
Qed.

(* --------------------------------------------------------------------- *)
(** ** Multipart: the applicability check *)
(* --------------------------------------------------------------------- *)

(** A header that begins with [multipart/form-data] is non-empty and its
    first code unit is 109 (['m']): the first two tests of
    [getContentType] never decide. *)
Lemma startsWith_multipart_first_char (contentType : string) :
  startsWith contentType "multipart/form-data" = true ->
  truthy contentType = true
  /\ charCodeAt contentType 0 = Some 109%N.
Proof.
  unfold startsWith. destruct contentType as [|c rest].
  - discriminate.
  - cbn [String.prefix]. destruct (ascii_dec "m" c) as [<-|_]; intros H.
    + split; reflexivity.
    + discriminate H.
Qed.

Lemma getContentType_decision (contentType : string) :
  negb (truthy contentType)
  || negb (bool_decide (charCodeAt contentType 0 = Some 109%N))
  || negb (startsWith contentType "multipart/form-data")
  = negb (String.prefix "multipart/form-data" contentType).
Proof.
  fold (startsWith contentType "multipart/form-data").
  destruct (startsWith contentType "multipart/form-data") eqn:Hp.
  - destruct (startsWith_multipart_first_char _ Hp) as [-> ->]. reflexivity.
  - rewrite !orb_true_r. reflexivity.
Qed.

Lemma Read_getContentType_applicable (req : Request) :
  Read.getContentType req
  = if applicable req then headers req !! "content-type" else None.
Proof.
  unfold Read.getContentType, applicable.
  destruct (headers req !! "content-type") as [ct|]; [|reflexivity].
  rewrite getContentType_decision.
  destruct (String.prefix "multipart/form-data" ct); reflexivity.
Qed.

Lemma Get_getContentType_applicable (req : Request) :
  Get.getContentType req
  = if applicable req then headers req !! "content-type" else None.
Proof.
  unfold Get.getContentType, applicable.
  destruct (headers req !! "content-type") as [ct|]; [|reflexivity].
  rewrite getContentType_decision.
  destruct (String.prefix "multipart/form-data" ct); reflexivity.
Qed.

(** The header object [@fastify/busboy] is built with is the request's. *)
Lemma Get_decoder_headers (req : Request) (contentType : string) :
  Get.getContentType req = Some contentType ->
  <["content-type" := contentType]> (headers req) = headers req.
Proof.
  rewrite Get_getContentType_applicable. intros H.
  apply insert_id. destruct (applicable req); [exact H|discriminate H].
Qed.

Lemma await_files_not_null (p : Promise (list MultipartFormData)) :
  await_files p <> Fulfilled None.
Proof. destruct p; discriminate. Qed.

Lemma Read_run (busboy : Decoder Busboy.File) (req : Request) :
  Read.readMultipartFormData busboy req
  = (if applicable req
     then match busboy (headers req) with
          | Throws e => {| settled := Rejected e; piped := false |}
          | Built bb =>
              {| settled :=
                   await_files (outer (listen Read.make (bb (stream req))));
                 piped := true |}
          end
     else {| settled := Fulfilled None; piped := false |}).
Proof.
  unfold Read.readMultipartFormData.
  rewrite Read_getContentType_applicable.
  destruct (applicable req) eqn:Ha; [|reflexivity].
  unfold applicable in Ha.
  destruct (headers req !! "content-type"); [reflexivity|discriminate Ha].
Qed.

Lemma Get_run (Busboy : Decoder FastifyBusboy.File) (req : Request) :
  Get.getMultipartFormData Busboy req
  = (if applicable req
     then match Busboy (headers req) with
          | Throws e => {| settled := Rejected e; piped := false |}
          | Built bb =>
              {| settled :=
                   await_files (outer (listen Get.make (bb (stream req))));
                 piped := true |}
          end
     else {| settled := Fulfilled None; piped := false |}).
Proof.
  unfold Get.getMultipartFormData.
  destruct (Get.getContentType req) as [ct|] eqn:Hct.
  - rewrite (Get_decoder_headers req ct Hct).
    rewrite Get_getContentType_applicable in Hct.
    destruct (applicable req); [reflexivity|discriminate Hct].
  - rewrite Get_getContentType_applicable in Hct.
    destruct (applicable req) eqn:Ha; [|reflexivity].
    unfold applicable in Ha. rewrite Hct in Ha. discriminate Ha.
Qed.

Lemma Read_settled (busboy : Decoder Busboy.File) (req : Request)
    (bb : list Buffer -> list (Event Busboy.File)) :
  applicable req = true ->
  busboy (headers req) = Built bb ->
  settled (Read.readMultipartFormData busboy req)
  = await_files (outer (listen Read.make (bb (stream req)))).
Proof. intros Ha Hb. rewrite Read_run, Ha, Hb. reflexivity. Qed.

Lemma Get_settled (Busboy : Decoder FastifyBusboy.File) (req : Request)
    (bb : list Buffer -> list (Event FastifyBusboy.File)) :
  applicable req = true ->
  Busboy (headers req) = Built bb ->
  settled (Get.getMultipartFormData Busboy req)
  = await_files (outer (listen Get.make (bb (stream req)))).
Proof. intros Ha Hb. rewrite Get_run, Ha, Hb. reflexivity. Qed.

Lemma await_files_fulfilled (p : Promise (list MultipartFormData))
    (files : list MultipartFormData) :
  await_files p = Fulfilled (Some files) <-> p = Fulfilled files.
Proof. destruct p; simpl; split; intros H; congruence. Qed.

Lemma await_files_rejected (p : Promise (list MultipartFormData)) (e : Thrown) :
  await_files p = Rejected e <-> p = Rejected e.
Proof. destruct p; simpl; split; intros H; congruence. Qed.

(** C3. Both extractors return [null] at once, without piping the request
    into a decoder, exactly when the content-type header is absent or does
    not begin with [multipart/form-data]; when it does begin with it they
    build the decoder from the request's headers and, unless building it
    throws, pipe the request into it and settle with the outcome of the
    parse (never with [null]).  The tests on emptiness and on the first
    character never change the decision. *)
Theorem multipart_applicability :
  forall (busboy : Decoder Busboy.File) (Busboy : Decoder FastifyBusboy.File)
         (req : Request),
    (applicable req = true <->
       exists contentType : string,
         headers req !! "content-type" = Some contentType
         /\ startsWith contentType "multipart/form-data" = true)
    /\ Read.readMultipartFormData busboy req
       = (if applicable req
          then match busboy (headers req) with
               | Throws e => {| settled := Rejected e; piped := false |}
               | Built bb =>
                   {| settled :=
                        await_files (outer (listen Read.make (bb (stream req))));
                      piped := true |}
               end
          else {| settled := Fulfilled None; piped := false |})
    /\ Get.getMultipartFormData Busboy req
       = (if applicable req
          then match Busboy (headers req) with
               | Throws e => {| settled := Rejected e; piped := false |}
               | Built bb =>
                   {| settled :=
                        await_files (outer (listen Get.make (bb (stream req))));
                      piped := true |}
               end
          else {| settled := Fulfilled None; piped := false |})
    /\ (applicable req = true ->
        settled (Read.readMultipartFormData busboy req) <> Fulfilled None
        /\ settled (Get.getMultipartFormData Busboy req) <> Fulfilled None).
Proof.
  intros busboy Busboy req.
  pose proof (Read_run busboy req) as Hread.
  pose proof (Get_run Busboy req) as Hget.
  split; [|split; [exact Hread|split; [exact Hget|]]].
  - unfold applicable, startsWith.
    destruct (headers req !! "content-type") as [ct|]; split.
    + intros H. exists ct. split; [reflexivity|exact H].
    + intros (ct' & Heq & H). congruence.
    + discriminate.
    + intros (ct' & Heq & _). discriminate Heq.
  - intros Ha. rewrite Hread, Hget, Ha. split.
    + destruct (busboy (headers req)); simpl;
        [discriminate|apply await_files_not_null].
    + destruct (Busboy (headers req)); simpl;
        [discriminate|apply await_files_not_null].
Qed.

(** The cases of the test suite: no header, [application/json],
    [text/plain], and a header whose first character is not ['m']. *)
Example not_applicable_examples :
  Read.readMultipartFormData (scripted mixed_upload)
    {| headers := ∅; params := JUndefined; query := JUndefined; stream := [] |}
  = {| settled := Fulfilled None; piped := false |}
  /\ Read.readMultipartFormData (scripted mixed_upload) json_request
     = {| settled := Fulfilled None; piped := false |}
  /\ Read.getContentType
       {| headers := {[ "content-type" := "text/plain" ]};
          params := JUndefined; query := JUndefined; stream := [] |}
     = None
  /\ Read.getContentType
       {| headers := {[ "content-type" := " Multipart/form-data; boundary=----x" ]};
          params := JUndefined; query := JUndefined; stream := [] |}
     = None
  /\ Get.getMultipartFormData (scripted mixed_upload') json_request
     = {| settled := Fulfilled None; piped := false |}.
Proof. repeat split. Qed.

Example applicable_example :
  Read.readMultipartFormData (scripted mixed_upload) upload_request
  = {| settled := Fulfilled (Some [hello_record; bin_record]); piped := true |}
  /\ Get.getMultipartFormData (scripted mixed_upload') upload_request
     = {| settled := Fulfilled (Some [hello_record; bin_record]);
          piped := true |}.
Proof. split; reflexivity. Qed.

(* --------------------------------------------------------------------- *)
(** ** Multipart: promises *)
(* --------------------------------------------------------------------- *)

Lemma Promise_all_fulfilled {A : Type} (ps : list (Promise A)) (values : list A) :
  Promise_all ps = Fulfilled values <-> ps = map Fulfilled values.
Proof.
  revert values. induction ps as [|p ps IH]; intros values; simpl.
  - split; intros H.
    + injection H as <-. reflexivity.
    + destruct values; [reflexivity|discriminate H].
  - destruct p as [|a|e].
    + split; intros H.
      * destruct (Promise_all ps); discriminate H.
      * destruct values; discriminate H.
    + split; intros H.
      * destruct (Promise_all ps) as [|l|e] eqn:Hall; try discriminate H.
        injection H as <-. simpl. f_equal. apply IH. reflexivity.
      * destruct values as [|v values]; [discriminate H|].
        simpl in H. injection H as -> ->.
        rewrite (proj2 (IH values) eq_refl). reflexivity.
    + split; intros H; [discriminate H|].
      destruct values; discriminate H.
Qed.

Lemma Promise_all_rejected_elem {A : Type} (ps : list (Promise A)) (e : Thrown) :
  Promise_all ps = Rejected e -> exists k : nat, ps !! k = Some (Rejected e).
Proof.
  induction ps as [|p ps IH]; simpl; [discriminate|].
  destruct p as [|a|e0].
  - destruct (Promise_all ps) as [|l|e1]; try discriminate.
    intros H. injection H as ->. destruct (IH eq_refl) as [k Hk].
    exists (S k). exact Hk.
  - destruct (Promise_all ps) as [|l|e1]; try discriminate.
    intros H. injection H as ->. destruct (IH eq_refl) as [k Hk].
    exists (S k). exact Hk.
  - intros H. injection H as ->. exists 0. reflexivity.
Qed.

Lemma Promise_all_rejected_intro {A : Type} (ps : list (Promise A))
    (k : nat) (e : Thrown) :
  ps !! k = Some (Rejected e) -> exists e' : Thrown, Promise_all ps = Rejected e'.
Proof.
  revert k. induction ps as [|p ps IH]; intros k Hk; [discriminate Hk|].
  destruct k as [|k]; simpl in Hk.
  - injection Hk as ->. exists e. reflexivity.
  - destruct (IH k Hk) as [e' He']. simpl. rewrite He'.
    destruct p as [|a|e0]; eauto.
Qed.

Lemma Promise_all_pending_elem {A : Type} (ps : list (Promise A))
    (k : nat) (values : list A) :
  ps !! k = Some Pending -> Promise_all ps <> Fulfilled values.
Proof.
  intros Hk Hall. apply Promise_all_fulfilled in Hall. subst ps.
  rewrite list_lookup_fmap in Hk.
  destruct (values !! k); discriminate Hk.
Qed.

(* --------------------------------------------------------------------- *)
(** ** Multipart: reading a sequence of events *)
(* --------------------------------------------------------------------- *)

Section TraceFacts.

Context {F : Type}.
Implicit Types (events seen rest : list (Event F)) (ev : Event F).

Lemma declared_snoc events ev :
  declared (events ++ [ev])
  = declared events ++ match ev with OnFile f => [f] | _ => [] end.
Proof. unfold declared. rewrite omap_app. destruct ev; reflexivity. Qed.

Lemma received_snoc k events ev :
  received k (events ++ [ev])
  = received k events
    ++ match ev with
       | OnData j chunk => if Nat.eqb j k then [chunk] else []
       | _ => []
       end.
Proof.
  unfold received. rewrite omap_app. destruct ev; try reflexivity.
  simpl. destruct (Nat.eqb k0 k); reflexivity.
Qed.

Lemma endings_snoc k events ev :
  endings k (events ++ [ev])
  = endings k events
    ++ match ev with
       | OnEnd j => if Nat.eqb j k then [Ended] else []
       | OnStreamError j e => if Nat.eqb j k then [Failed e] else []
       | _ => []
       end.
Proof.
  unfold endings. rewrite omap_app. destruct ev; try reflexivity;
    simpl; destruct (Nat.eqb k0 k); reflexivity.
Qed.

Lemma decoder_endings_snoc events ev :
  decoder_endings (events ++ [ev])
  = decoder_endings events
    ++ match ev with
       | OnFinish => [Ended]
       | OnError e => [Failed e]
       | _ => []
       end.
Proof. unfold decoder_endings. rewrite omap_app. destruct ev; reflexivity. Qed.

Lemma is_nil_true {A : Type} (l : list A) : is_nil l = true <-> l = [].
Proof. destruct l; simpl; split; congruence. Qed.

Lemma protocol_from_snoc seen rest ev :
  protocol_from seen (rest ++ [ev])
  = protocol_from seen rest && allowed (seen ++ rest) ev.
Proof.
  revert seen. induction rest as [|ev' rest IH]; intros seen; simpl.
  - rewrite app_nil_r, andb_true_r. reflexivity.
  - rewrite IH, <- app_assoc, andb_assoc. reflexivity.
Qed.

Lemma follows_protocol_snoc events ev :
  follows_protocol (events ++ [ev]) = true
  <-> follows_protocol events = true /\ allowed events ev = true.
Proof.
  unfold follows_protocol. rewrite protocol_from_snoc. simpl.
  apply andb_true_iff.
Qed.

(** A prefix of a sequence that follows the protocol follows it too. *)
Lemma follows_protocol_prefix events rest :
  follows_protocol (events ++ rest) = true -> follows_protocol events = true.
Proof.
  induction rest as [|ev rest IH] using rev_ind.
  - rewrite app_nil_r. trivial.
  - rewrite app_assoc. intros H.
    apply follows_protocol_snoc in H as [H _]. exact (IH H).
Qed.

(** Streams not declared yet have delivered nothing. *)
Lemma undeclared_silent events k :
  follows_protocol events = true ->
  length (declared events) <= k ->
  received k events = [] /\ endings k events = [].
Proof.
  induction events as [|ev events IH] using rev_ind; intros Hp Hk.
  - split; reflexivity.
  - apply follows_protocol_snoc in Hp as [Hp Hal].
    rewrite declared_snoc, length_app in Hk.
    destruct (IH Hp ltac:(lia)) as [Hr He].
    rewrite received_snoc, endings_snoc, Hr, He.
    destruct ev as [f|n v|j chunk|j|j e| |e]; simpl; try (split; reflexivity);
      simpl in Hal, Hk; apply andb_true_iff in Hal as [Hlt _];
      apply Nat.ltb_lt in Hlt;
      (destruct (Nat.eqb_spec j k) as [->|_]; [lia|split; reflexivity]).
Qed.

(** A stream, and the decoder, end at most once. *)
Lemma endings_at_most_one events k :
  follows_protocol events = true -> length (endings k events) <= 1.
Proof.
  induction events as [|ev events IH] using rev_ind; intros Hp.
  - simpl. lia.
  - apply follows_protocol_snoc in Hp as [Hp Hal].
    specialize (IH Hp). rewrite endings_snoc, length_app.
    destruct ev as [f|n v|j chunk|j|j e| |e]; simpl; try lia;
      simpl in Hal; apply andb_true_iff in Hal as [_ Hnil];
      apply is_nil_true in Hnil;
      (destruct (Nat.eqb_spec j k) as [->|_];
       [rewrite Hnil; simpl; lia|simpl; lia]).
Qed.

Lemma decoder_endings_at_most_one events :
  follows_protocol events = true -> length (decoder_endings events) <= 1.
Proof.
  induction events as [|ev events IH] using rev_ind; intros Hp.
  - simpl. lia.
  - apply follows_protocol_snoc in Hp as [Hp Hal].
    specialize (IH Hp). rewrite decoder_endings_snoc, length_app.
    destruct ev as [f|n v|j chunk|j|j e| |e]; simpl; try lia;
      simpl in Hal; apply is_nil_true in Hal; rewrite Hal; simpl; lia.
Qed.

Lemma In_OnEnd_endings events k :
  In (OnEnd k) events <-> In Ended (endings k events).
Proof.
  induction events as [|ev events IH] using rev_ind.
  - simpl. tauto.
  - rewrite endings_snoc, !in_app_iff, IH. simpl.
    destruct ev as [f|n v|j chunk|j|j e| |e]; simpl;
      try (intuition congruence).
    + destruct (Nat.eqb_spec j k) as [->|Hne]; simpl; intuition congruence.
    + destruct (Nat.eqb_spec j k) as [->|Hne]; simpl; intuition congruence.
Qed.

Lemma In_OnStreamError_endings events k e :
  In (OnStreamError k e) events <-> In (Failed e) (endings k events).
Proof.
  induction events as [|ev events IH] using rev_ind.
  - simpl. tauto.
  - rewrite endings_snoc, !in_app_iff, IH. simpl.
    destruct ev as [f|n v|j chunk|j|j e'| |e']; simpl;
      try (intuition congruence).
    + destruct (Nat.eqb_spec j k) as [->|Hne]; simpl; intuition congruence.
    + destruct (Nat.eqb_spec j k) as [->|Hne]; simpl; intuition congruence.
Qed.

Lemma In_OnFinish_decoder_endings events :
  In OnFinish events <-> In Ended (decoder_endings events).
Proof.
  induction events as [|ev events IH] using rev_ind.
  - simpl. tauto.
  - rewrite decoder_endings_snoc, !in_app_iff, IH. simpl.
    destruct ev; simpl; intuition congruence.
Qed.

Lemma In_OnError_decoder_endings events e :
  In (OnError e) events <-> In (Failed e) (decoder_endings events).
Proof.
  induction events as [|ev events IH] using rev_ind.
  - simpl. tauto.
  - rewrite decoder_endings_snoc, !in_app_iff, IH. simpl.
    destruct ev; simpl; intuition congruence.
Qed.

(** With at most one ending, membership fixes the whole list. *)
Lemma single_ending (l : list Ending) (x : Ending) :
  length l <= 1 -> In x l -> l = [x].
Proof.
  destruct l as [|y [|z l]]; simpl; intros Hlen Hin.
  - destruct Hin.
  - destruct Hin as [->|[]]. reflexivity.
  - lia.
Qed.

End TraceFacts.

(* --------------------------------------------------------------------- *)
(** ** Multipart: the listeners keep their invariant *)
(* --------------------------------------------------------------------- *)

Section ListenerFacts.

Context {F : Type}.
Variable make : F -> Buffer -> MultipartFormData.
Implicit Types (events : list (Event F)) (ev : Event F) (st : State F)
  (u : Upload F) (ps : list (Upload F)).

Lemma listen_snoc events ev :
  listen make (events ++ [ev]) = handle make (listen make events) ev.
Proof. unfold listen. rewrite fold_left_app. reflexivity. Qed.

Lemma promises_react st : promises (react st) = promises st.
Proof. unfold react. destruct (outer st); reflexivity. Qed.

Lemma joins_react st : joins (react st) = joins st.
Proof. unfold react. destruct (outer st); reflexivity. Qed.

Lemma outer_ok_ext st st' :
  map promise (promises st') = map promise (promises st) ->
  outer st' = outer st ->
  outer_ok st -> outer_ok st'.
Proof. unfold outer_ok. intros -> ->. trivial. Qed.

(** The [Promise.all] call made in the ['finish'] listener, once the
    reactions have run. *)
Lemma react_single_join ps (p : Promise (list MultipartFormData)) :
  p = Pending ->
  outer_ok (react {| promises := ps; joins := [length ps]; outer := p |}).
Proof.
  intros ->. unfold react, outer_ok, join_result. simpl.
  rewrite firstn_all.
  destruct (Promise_all (map promise ps)) as [|files|e] eqn:Hall; simpl.
  - reflexivity.
  - reflexivity.
  - destruct (Promise_all_rejected_elem _ _ Hall) as [j Hj].
    exists j, e. split; [exact Hj|reflexivity].
Qed.

(** Settling the pending promise of stream [k] after ['finish']. *)
Lemma react_after_settle st k u u' :
  joins st = [length (promises st)] ->
  outer_ok st ->
  promises st !! k = Some u ->
  promise u = Pending ->
  outer_ok (react (set_promises (<[k := u']> (promises st)) st)).
Proof.
  intros Hj Hok Hk Hpend.
  assert (Hk' : map promise (promises st) !! k = Some Pending).
  { rewrite list_lookup_fmap, Hk. simpl. rewrite Hpend. reflexivity. }
  destruct st as [ps js out]. simpl in *. subst js.
  destruct out as [|files|e0].
  - unfold set_promises. simpl.
    rewrite <- (length_insert ps k u').
    apply react_single_join. reflexivity.
  - exfalso. unfold outer_ok in Hok. simpl in Hok.
    destruct (Promise_all (map promise ps)) as [|l|e] eqn:Hall.
    + discriminate Hok.
    + exact (Promise_all_pending_elem _ _ _ Hk' Hall).
    + destruct Hok as (j & e' & _ & Hout). discriminate Hout.
  - unfold react, set_promises. simpl.
    unfold outer_ok in Hok |- *. simpl in *.
    destruct (Promise_all (map promise ps)) as [|l|e] eqn:Hall.
    + discriminate Hok.
    + discriminate Hok.
    + destruct Hok as (j & e' & Hj & Hout).
      assert (Hne : k <> j) by (intros ->; congruence).
      assert (Hj' : map promise (<[k := u']> ps) !! j = Some (Rejected e')).
      { rewrite list_fmap_insert, list_lookup_insert_ne by exact Hne.
        exact Hj. }
      destruct (Promise_all_rejected_intro _ _ _ Hj') as [e'' ->].
      exists j, e'. split; [exact Hj'|exact Hout].
Qed.

Lemma fmap_insert_same {B : Type} (f : Upload F -> B) ps k u u' :
  ps !! k = Some u -> f u' = f u -> map f (<[k := u']> ps) = map f ps.
Proof.
  intros Hk Hf. rewrite list_fmap_insert, Hf.
  apply list_insert_id. rewrite list_lookup_fmap, Hk. reflexivity.
Qed.

Lemma promise_of_snoc_other (f : F) k events ev :
  match ev with
  | OnData j _ | OnEnd j | OnStreamError j _ => j <> k
  | _ => True
  end ->
  promise_of make f k (events ++ [ev]) = promise_of make f k events.
Proof.
  intros Hev. unfold promise_of. rewrite endings_snoc, received_snoc.
  destruct ev as [f'|n v|j chunk|j|j e| |e]; simpl;
    rewrite ?app_nil_r; try reflexivity;
    (destruct (Nat.eqb_spec j k) as [->|_]; [contradiction|]);
    rewrite ?app_nil_r; reflexivity.
Qed.

(** One more event, allowed by the protocol, keeps the invariant. *)
Lemma handle_inv events ev st :
  follows_protocol events = true ->
  allowed events ev = true ->
  Inv make events st ->
  Inv make (events ++ [ev]) (handle make st ev).
Proof.
  intros Hp Hal [Hinfo Hup Hout].
  assert (Hlen : length (promises st) = length (declared events)).
  { rewrite <- Hinfo, length_map. reflexivity. }
  destruct ev as [f|n v|k chunk|k|k e| |e]; simpl in Hal |- *.
  - (* 'file' *)
    apply is_nil_true in Hal. constructor; simpl.
    + rewrite declared_snoc, map_app, Hinfo. reflexivity.
    + intros k u Hk. rewrite received_snoc, app_nil_r.
      rewrite promise_of_snoc_other by exact I.
      apply lookup_app_Some in Hk as [Hk|[Hge Hk]]; [exact (Hup k u Hk)|].
      apply list_lookup_singleton_Some in Hk as [Hz <-]. simpl.
      destruct (undeclared_silent events k Hp ltac:(lia)) as [Hr He].
      unfold promise_of. rewrite Hr, He. split; reflexivity.
    + rewrite decoder_endings_snoc, app_nil_r, Hal. rewrite Hal in Hout.
      exact Hout.
  - (* 'field' *)
    constructor.
    + rewrite declared_snoc, app_nil_r. exact Hinfo.
    + intros k u Hk. rewrite received_snoc, app_nil_r.
      rewrite promise_of_snoc_other by exact I. exact (Hup k u Hk).
    + rewrite decoder_endings_snoc, app_nil_r. exact Hout.
  - (* 'data' on stream k *)
    apply andb_true_iff in Hal as [Hlt Hnil].
    apply Nat.ltb_lt in Hlt. apply is_nil_true in Hnil.
    destruct (promises st !! k) as [u|] eqn:Hk;
      [|apply lookup_ge_None in Hk; lia].
    destruct (Hup k u Hk) as [Hch Hpr].
    constructor; simpl.
    + rewrite declared_snoc, app_nil_r, <- Hinfo.
      apply (fmap_insert_same info _ _ u); [exact Hk|reflexivity].
    + intros j v Hj. apply list_lookup_insert_Some in Hj
        as [(<- & <- & _)|(Hne & Hj)].
      * simpl. rewrite received_snoc, Nat.eqb_refl, Hch.
        split; [reflexivity|].
        rewrite Hpr. unfold promise_of.
        rewrite endings_snoc, app_nil_r, Hnil. reflexivity.
      * rewrite received_snoc.
        destruct (Nat.eqb_spec k j) as [->|_]; [contradiction|].
        rewrite app_nil_r, promise_of_snoc_other by exact Hne.
        exact (Hup j v Hj).
    + rewrite decoder_endings_snoc, app_nil_r, length_insert.
      destruct (decoder_endings events) as [|[|e] l]; [exact Hout| |exact Hout].
      destruct Hout as [Hj Hok]. split; [exact Hj|].
      eapply outer_ok_ext; [| |exact Hok]; simpl; [|reflexivity].
      apply (fmap_insert_same promise _ _ u); [exact Hk|reflexivity].
  - (* 'end' on stream k *)
    apply andb_true_iff in Hal as [Hlt Hnil].
    apply Nat.ltb_lt in Hlt. apply is_nil_true in Hnil.
    destruct (promises st !! k) as [u|] eqn:Hk;
      [|apply lookup_ge_None in Hk; lia].
    destruct (Hup k u Hk) as [Hch Hpr].
    assert (Hpend : promise u = Pending).
    { rewrite Hpr. unfold promise_of. rewrite Hnil. reflexivity. }
    rewrite Hpend.
    constructor; rewrite ?promises_react; simpl.
    + rewrite declared_snoc, app_nil_r, <- Hinfo.
      apply (fmap_insert_same info _ _ u); [exact Hk|reflexivity].
    + intros j v Hj. apply list_lookup_insert_Some in Hj
        as [(<- & <- & _)|(Hne & Hj)].
      * simpl. rewrite received_snoc, app_nil_r, Hch.
        split; [reflexivity|].
        unfold promise_of.
        rewrite endings_snoc, Nat.eqb_refl, Hnil, received_snoc, app_nil_r.
        reflexivity.
      * rewrite received_snoc, app_nil_r.
        rewrite promise_of_snoc_other by exact Hne.
        exact (Hup j v Hj).
    + rewrite decoder_endings_snoc, app_nil_r.
      destruct (decoder_endings events) as [|[|e] l].
      * destruct Hout as [Hj Ho]. unfold react, set_promises. simpl.
        rewrite Ho, Hj. simpl. split; reflexivity.
      * destruct Hout as [Hj Hok].
        rewrite joins_react. simpl. rewrite length_insert.
        split; [exact Hj|].
        apply (react_after_settle st k u); assumption.
      * unfold react, set_promises. simpl. rewrite Hout. reflexivity.
  - (* 'error' on stream k *)
    apply andb_true_iff in Hal as [Hlt Hnil].
    apply Nat.ltb_lt in Hlt. apply is_nil_true in Hnil.
    destruct (promises st !! k) as [u|] eqn:Hk;
      [|apply lookup_ge_None in Hk; lia].
    destruct (Hup k u Hk) as [Hch Hpr].
    assert (Hpend : promise u = Pending).
    { rewrite Hpr. unfold promise_of. rewrite Hnil. reflexivity. }
    rewrite Hpend.
    constructor; rewrite ?promises_react; simpl.
    + rewrite declared_snoc, app_nil_r, <- Hinfo.
      apply (fmap_insert_same info _ _ u); [exact Hk|reflexivity].
    + intros j v Hj. apply list_lookup_insert_Some in Hj
        as [(<- & <- & _)|(Hne & Hj)].
      * simpl. rewrite received_snoc, app_nil_r, Hch.
        split; [reflexivity|].
        unfold promise_of.
        rewrite endings_snoc, Nat.eqb_refl, Hnil.
        reflexivity.
      * rewrite received_snoc, app_nil_r.
        rewrite promise_of_snoc_other by exact Hne.
        exact (Hup j v Hj).
    + rewrite decoder_endings_snoc, app_nil_r.
      destruct (decoder_endings events) as [|[|e'] l].
      * destruct Hout as [Hj Ho]. unfold react, set_promises. simpl.
        rewrite Ho, Hj. simpl. split; reflexivity.
      * destruct Hout as [Hj Hok].
        rewrite joins_react. simpl. rewrite length_insert.
        split; [exact Hj|].
        apply (react_after_settle st k u); assumption.
      * unfold react, set_promises. simpl. rewrite Hout. reflexivity.
  - (* 'finish' *)
    apply is_nil_true in Hal. rewrite Hal in Hout. destruct Hout as [Hj Ho].
    constructor; rewrite ?promises_react; simpl.
    + rewrite declared_snoc, app_nil_r. exact Hinfo.
    + intros k u Hk. rewrite received_snoc, app_nil_r.
      rewrite promise_of_snoc_other by exact I. exact (Hup k u Hk).
    + rewrite decoder_endings_snoc, Hal. simpl.
      rewrite joins_react. simpl. rewrite Hj. split; [reflexivity|].
      apply react_single_join. exact Ho.
  - (* 'error' *)
    apply is_nil_true in Hal. rewrite Hal in Hout. destruct Hout as [Hj Ho].
    rewrite Ho.
    constructor; simpl.
    + rewrite declared_snoc, app_nil_r. exact Hinfo.
    + intros k u Hk. rewrite received_snoc, app_nil_r.
      rewrite promise_of_snoc_other by exact I. exact (Hup k u Hk).
    + rewrite decoder_endings_snoc, Hal. reflexivity.
Qed.

(** After any sequence of events that follows the protocol, the
    listeners' state is the one read off the sequence. *)
Lemma listen_inv events :
  follows_protocol events = true -> Inv make events (listen make events).
Proof.
  induction events as [|ev events IH] using rev_ind; intros Hp.
  - constructor; simpl.
    + reflexivity.
    + intros k u Hk. discriminate Hk.
    + split; reflexivity.
  - apply follows_protocol_snoc in Hp as [Hp Hal].
    rewrite listen_snoc. apply handle_inv; auto.
Qed.

End ListenerFacts.

(* --------------------------------------------------------------------- *)
(** ** Multipart: how the returned promise settles *)
(* --------------------------------------------------------------------- *)

Section SettleFacts.

Context {F : Type}.
Variable make : F -> Buffer -> MultipartFormData.
Implicit Types (events rest : list (Event F)) (ev : Event F) (st : State F).

(** The returned promise settles once: later events do not change it. *)
Lemma handle_settled st ev :
  outer st <> Pending -> outer (handle make st ev) = outer st.
Proof.
  intros Hs.
  assert (Hreact : forall st', outer st' = outer st -> outer (react st') = outer st).
  { intros st' Heq. unfold react. rewrite Heq.
    destruct (outer st); [contradiction|exact Heq..]. }
  destruct ev as [f|n v|k chunk|k|k e| |e]; simpl; try reflexivity.
  - destruct (promises st !! k); reflexivity.
  - destruct (promises st !! k) as [u|]; [|reflexivity].
    destruct (promise u); try reflexivity. apply Hreact. reflexivity.
  - destruct (promises st !! k) as [u|]; [|reflexivity].
    destruct (promise u); try reflexivity. apply Hreact. reflexivity.
  - apply Hreact. reflexivity.
  - destruct (outer st) eqn:Ho; [contradiction|exact Ho..].
Qed.

Lemma listen_settled events rest :
  outer (listen make events) <> Pending ->
  outer (listen make (events ++ rest)) = outer (listen make events).
Proof.
  intros Hs. induction rest as [|ev rest IH] using rev_ind.
  - rewrite app_nil_r. reflexivity.
  - rewrite app_assoc, listen_snoc, handle_settled; rewrite IH; auto.
Qed.

Lemma declared_lookup events k :
  follows_protocol events = true ->
  k < length (declared events) ->
  exists u : Upload F,
    promises (listen make events) !! k = Some u
    /\ declared events !! k = Some (info u)
    /\ chunks u = received k events
    /\ promise u = promise_of make (info u) k events.
Proof.
  intros Hp Hk. destruct (listen_inv make events Hp) as [Hinfo Hup _].
  destruct (lookup_lt_is_Some_2 (promises (listen make events)) k) as [u Hu].
  { rewrite <- Hinfo, length_map in Hk. exact Hk. }
  exists u. split; [exact Hu|].
  split; [|exact (Hup k u Hu)].
  rewrite <- Hinfo, list_lookup_fmap, Hu. reflexivity.
Qed.

(** When the returned promise is fulfilled, and with what. *)
Lemma listen_fulfilled events files :
  follows_protocol events = true ->
  (outer (listen make events) = Fulfilled files
   <-> In OnFinish events
       /\ (forall k, k < length (declared events) -> In (OnEnd k) events)
       /\ files = records make events).
Proof.
  intros Hp. pose proof (listen_inv make events Hp) as [Hinfo Hup Hout].
  split.
  - intros Hful.
    destruct (decoder_endings events) as [|[|e] l] eqn:Hde.
    + destruct Hout as [_ Ho]. congruence.
    + destruct Hout as [_ Hok]. unfold outer_ok in Hok.
      destruct (Promise_all (map promise (promises (listen make events))))
        as [|files'|e] eqn:Hall.
      * congruence.
      * assert (files' = files) by congruence. subst files'.
        apply Promise_all_fulfilled in Hall.
        assert (Hk : forall k, k < length (declared events) ->
                     endings k events <> []
                     /\ files !! k
                        = (fun f => make f (Buffer_concat (received k events)))
                            <$> declared events !! k).
        { intros k Hk.
          destruct (declared_lookup events k Hp Hk) as (u & Hu & Hd & _ & Hpr).
          assert (Hfk : Fulfilled <$> files !! k = Some (promise u)).
          { rewrite <- list_lookup_fmap.
            change (map Fulfilled files !! k = Some (promise u)).
            rewrite <- Hall, list_lookup_fmap, Hu.
            reflexivity. }
          rewrite Hd. simpl. rewrite Hpr in Hfk. unfold promise_of in Hfk.
          destruct (endings k events) as [|[|e] l'];
            destruct (files !! k); simpl in Hfk; try discriminate Hfk.
          injection Hfk as ->. split; [discriminate|reflexivity]. }
        split; [apply In_OnFinish_decoder_endings; rewrite Hde; left; reflexivity|].
        split.
        -- intros k Hlt. destruct (Hk k Hlt) as [Hne _].
           apply In_OnEnd_endings.
           pose proof (endings_at_most_one events k Hp) as Hone.
           destruct (declared_lookup events k Hp Hlt) as (u & Hu & _ & _ & Hpr).
           assert (Hfk : Fulfilled <$> files !! k = Some (promise u)).
           { rewrite <- list_lookup_fmap.
             change (map Fulfilled files !! k = Some (promise u)).
             rewrite <- Hall, list_lookup_fmap, Hu. reflexivity. }
           rewrite Hpr in Hfk. unfold promise_of in Hfk.
           destruct (endings k events) as [|[|e] l'].
           ++ contradiction.
           ++ left. reflexivity.
           ++ destruct (files !! k); discriminate Hfk.
        -- apply list_eq. intros k. unfold records.
           rewrite list_lookup_imap.
           destruct (Nat.lt_ge_cases k (length (declared events))) as [Hlt|Hge].
           ++ exact (proj2 (Hk k Hlt)).
           ++ rewrite (proj2 (lookup_ge_None (declared events) k) Hge).
              apply lookup_ge_None.
              assert (Hl : length (map Fulfilled files)
                           = length (declared events)).
              { rewrite <- Hall, <- Hinfo, !length_map. reflexivity. }
              rewrite length_map in Hl. lia.
      * destruct Hok as (j & e' & _ & Ho). congruence.
    + congruence.
  - intros (Hfin & Hends & ->).
    apply In_OnFinish_decoder_endings in Hfin.
    rewrite (single_ending _ _ (decoder_endings_at_most_one events Hp) Hfin)
      in Hout.
    destruct Hout as [_ Hok]. unfold outer_ok in Hok.
    assert (Hall : Promise_all (map promise (promises (listen make events)))
                   = Fulfilled (records make events)).
    { apply Promise_all_fulfilled. apply list_eq. intros k.
      change ((promise <$> promises (listen make events)) !! k
              = (Fulfilled <$> records make events) !! k).
      rewrite !list_lookup_fmap. unfold records. rewrite list_lookup_imap.
      destruct (Nat.lt_ge_cases k (length (declared events))) as [Hlt|Hge].
      - destruct (declared_lookup events k Hp Hlt) as (u & Hu & Hd & _ & Hpr).
        rewrite Hu, Hd. simpl. rewrite Hpr. unfold promise_of.
        specialize (Hends k Hlt). apply In_OnEnd_endings in Hends.
        rewrite (single_ending _ _ (endings_at_most_one events k Hp) Hends).
        reflexivity.
      - rewrite (proj2 (lookup_ge_None (declared events) k) Hge).
        rewrite (proj2 (lookup_ge_None (promises (listen make events)) k)).
        + reflexivity.
        + rewrite <- Hinfo, length_map in Hge. exact Hge. }
    rewrite Hall in Hok. exact Hok.
Qed.


Lemma stream_error_declared events k e :
  follows_protocol events = true ->
  In (OnStreamError k e) events ->
  k < length (declared events).
Proof.
  intros Hp Hin. apply In_OnStreamError_endings in Hin.
  destruct (Nat.lt_ge_cases k (length (declared events))) as [Hlt|Hge];
    [exact Hlt|].
  destruct (undeclared_silent events k Hp Hge) as [_ He].
  rewrite He in Hin. destruct Hin.
Qed.




(** Once the decoder has ended, it declares no further part. *)
Lemma declared_after_ending events rest :
  follows_protocol (events ++ rest) = true ->
  decoder_endings events <> [] ->
  declared (events ++ rest) = declared events.
Proof.
  induction rest as [|ev rest IH] using rev_ind; intros Hp Hne.
  - rewrite app_nil_r. reflexivity.
  - rewrite app_assoc in Hp |- *.
    apply follows_protocol_snoc in Hp as [Hp Hal].
    rewrite declared_snoc, (IH Hp Hne).
    destruct ev as [f|n v|k chunk|k|k e| |e]; try apply app_nil_r.
    simpl in Hal. apply is_nil_true in Hal.
    unfold decoder_endings in Hal. rewrite omap_app in Hal.
    apply app_eq_nil in Hal as [Hal _]. contradiction.
Qed.

End SettleFacts.

Section RecordFacts.

Context {F : Type}.
Variable make : F -> Buffer -> MultipartFormData.
Implicit Types (events seen rest : list (Event F)).

Lemma length_Buffer_concat (chunks : list Buffer) :
  length (Buffer_concat chunks) = list_sum (map length chunks).
Proof.
  unfold Buffer_concat. induction chunks as [|c chunks IH]; simpl.
  - reflexivity.
  - rewrite length_app, IH. reflexivity.
Qed.

Lemma records_lookup events k :
  records make events !! k
  = (fun f => make f (Buffer_concat (received k events)))
      <$> declared events !! k.
Proof. unfold records. apply list_lookup_imap. Qed.

(** The record at index [k] of a fulfilled result is the one made from
    the [k]-th declared file part and all the chunks of its stream. *)
Lemma listen_fulfilled_record events files k r :
  follows_protocol events = true ->
  outer (listen make events) = Fulfilled files ->
  files !! k = Some r ->
  exists f : F,
    declared events !! k = Some f
    /\ r = make f (Buffer_concat (received k events)).
Proof.
  intros Hp Hful Hk.
  apply (listen_fulfilled make events files Hp) in Hful as (_ & _ & ->).
  rewrite records_lookup in Hk.
  destruct (declared events !! k) as [f|]; [|discriminate Hk].
  exists f. split; [reflexivity|]. simpl in Hk. congruence.
Qed.

(** The promise is fulfilled only after ['finish'] and after the ['end']
    of every file part of the body. *)
Lemma listen_fulfilled_only_after seen rest files :
  follows_protocol (seen ++ rest) = true ->
  outer (listen make seen) = Fulfilled files ->
  In OnFinish seen
  /\ (forall k, k < length (declared (seen ++ rest)) -> In (OnEnd k) seen)
  /\ outer (listen make (seen ++ rest)) = Fulfilled files.
Proof.
  intros Hp Hful.
  pose proof (follows_protocol_prefix seen rest Hp) as Hps.
  pose proof (proj1 (listen_fulfilled make seen files Hps) Hful)
    as (Hfin & Hends & _).
  split; [exact Hfin|]. split.
  - rewrite (declared_after_ending seen rest Hp); [exact Hends|].
    apply In_OnFinish_decoder_endings in Hfin.
    intros Hnil. rewrite Hnil in Hfin. destruct Hfin.
  - rewrite listen_settled; [exact Hful|]. rewrite Hful. discriminate.
Qed.

End RecordFacts.

(** C4. For an applicable request whose decoder follows the stream
    protocol, every record of the resolved list holds exactly the chunks
    its part's stream delivered, concatenated in arrival order: the same
    bytes, and as many as were received; for both extractors. *)
Theorem file_content_is_received_bytes :
  forall (busboy : Decoder Busboy.File) (Busboy : Decoder FastifyBusboy.File)
         (req : Request) (files : list MultipartFormData)
         (k : nat) (r : MultipartFormData),
    applicable req = true ->
    files !! k = Some r ->
    (forall bb : list Buffer -> list (Event Busboy.File),
        busboy (headers req) = Built bb ->
        follows_protocol (bb (stream req)) = true ->
        settled (Read.readMultipartFormData busboy req) = Fulfilled (Some files) ->
        buffer r = Buffer_concat (received k (bb (stream req)))
        /\ length (buffer r)
           = list_sum (map length (received k (bb (stream req)))))
    /\ (forall fb : list Buffer -> list (Event FastifyBusboy.File),
        Busboy (headers req) = Built fb ->
        follows_protocol (fb (stream req)) = true ->
        settled (Get.getMultipartFormData Busboy req) = Fulfilled (Some files) ->
        buffer r = Buffer_concat (received k (fb (stream req)))
        /\ length (buffer r)
           = list_sum (map length (received k (fb (stream req))))).
Proof.
  intros busboy Busboy req files k r Ha Hk. split.
  - intros bb Hb Hp Hful.
    rewrite (Read_settled busboy req bb Ha Hb) in Hful.
    apply await_files_fulfilled in Hful.
    destruct (listen_fulfilled_record Read.make _ files k r Hp Hful Hk)
      as (f & _ & ->).
    simpl. split; [reflexivity|apply length_Buffer_concat].
  - intros fb Hb Hp Hful.
    rewrite (Get_settled Busboy req fb Ha Hb) in Hful.
    apply await_files_fulfilled in Hful.
    destruct (listen_fulfilled_record Get.make _ files k r Hp Hful Hk)
      as (f & _ & ->).
    simpl. split; [reflexivity|apply length_Buffer_concat].
Qed.

Lemma file_content_is_received_bytes_witness :
  (buffer bin_record = Buffer_concat (received 1 mixed_upload)
   /\ length (buffer bin_record) = list_sum (map length (received 1 mixed_upload)))
  /\ (buffer bin_record = Buffer_concat (received 1 mixed_upload')
      /\ length (buffer bin_record)
         = list_sum (map length (received 1 mixed_upload'))).
Proof.
  pose proof (file_content_is_received_bytes
                (scripted mixed_upload) (scripted mixed_upload')
                upload_request [hello_record; bin_record] 1 bin_record
                eq_refl eq_refl) as [Hread Hget].
  split.
  - apply (Hread (fun _ => mixed_upload)); reflexivity.
  - apply (Hget (fun _ => mixed_upload')); reflexivity.
Defined.

(** C5. For an applicable request whose decoder follows the stream
    protocol, the promise is fulfilled exactly when the decoder has
    reported ['finish'] and every file part has ended, and then with one
    record per file part, in the order the parts were declared, fields
    giving no record; it is not fulfilled at any earlier point of the
    event sequence; for both extractors. *)
Theorem resolves_after_finish_in_declaration_order :
  forall (busboy : Decoder Busboy.File) (Busboy : Decoder FastifyBusboy.File)
         (req : Request),
    applicable req = true ->
    (forall bb : list Buffer -> list (Event Busboy.File),
        busboy (headers req) = Built bb ->
        follows_protocol (bb (stream req)) = true ->
        (forall files : list MultipartFormData,
            settled (Read.readMultipartFormData busboy req)
            = Fulfilled (Some files)
            <-> In OnFinish (bb (stream req))
                /\ (forall k, k < length (declared (bb (stream req))) ->
                              In (OnEnd k) (bb (stream req)))
                /\ files
                   = imap (fun k f =>
                             {| name := Busboy.name f;
                                filename := Busboy.filename (Busboy.info f);
                                mimeType := Busboy.mimeType (Busboy.info f);
                                buffer :=
                                  Buffer_concat (received k (bb (stream req))) |})
                          (declared (bb (stream req))))
        /\ (forall seen rest files,
               bb (stream req) = seen ++ rest ->
               outer (listen Read.make seen) = Fulfilled files ->
               In OnFinish seen
               /\ (forall k, k < length (declared (bb (stream req))) ->
                             In (OnEnd k) seen)
               /\ settled (Read.readMultipartFormData busboy req)
                  = Fulfilled (Some files)))
    /\ (forall fb : list Buffer -> list (Event FastifyBusboy.File),
        Busboy (headers req) = Built fb ->
        follows_protocol (fb (stream req)) = true ->
        (forall files : list MultipartFormData,
            settled (Get.getMultipartFormData Busboy req)
            = Fulfilled (Some files)
            <-> In OnFinish (fb (stream req))
                /\ (forall k, k < length (declared (fb (stream req))) ->
                              In (OnEnd k) (fb (stream req)))
                /\ files
                   = imap (fun k f =>
                             {| name := FastifyBusboy.fieldname f;
                                filename := FastifyBusboy.filename f;
                                mimeType := FastifyBusboy.mimeType f;
                                buffer :=
                                  Buffer_concat (received k (fb (stream req))) |})
                          (declared (fb (stream req))))
        /\ (forall seen rest files,
               fb (stream req) = seen ++ rest ->
               outer (listen Get.make seen) = Fulfilled files ->
               In OnFinish seen
               /\ (forall k, k < length (declared (fb (stream req))) ->
                             In (OnEnd k) seen)
               /\ settled (Get.getMultipartFormData Busboy req)
                  = Fulfilled (Some files))).
Proof.
  intros busboy Busboy req Ha. split.
  - intros bb Hb Hp. rewrite (Read_settled busboy req bb Ha Hb). split.
    + intros files. rewrite await_files_fulfilled.
      exact (listen_fulfilled Read.make _ files Hp).
    + intros seen rest files Heq Hful. rewrite Heq in Hp |- *.
      rewrite await_files_fulfilled.
      exact (listen_fulfilled_only_after Read.make seen rest files Hp Hful).
  - intros fb Hb Hp. rewrite (Get_settled Busboy req fb Ha Hb). split.
    + intros files. rewrite await_files_fulfilled.
      exact (listen_fulfilled Get.make _ files Hp).
    + intros seen rest files Heq Hful. rewrite Heq in Hp |- *.
      rewrite await_files_fulfilled.
      exact (listen_fulfilled_only_after Get.make seen rest files Hp Hful).
Qed.

Lemma resolves_after_finish_in_declaration_order_witness :
  settled (Read.readMultipartFormData (scripted mixed_upload) upload_request)
  = Fulfilled (Some [hello_record; bin_record])
  /\ settled (Get.getMultipartFormData (scripted mixed_upload') upload_request)
     = Fulfilled (Some [hello_record; bin_record]).
Proof.
  pose proof (resolves_after_finish_in_declaration_order
                (scripted mixed_upload) (scripted mixed_upload')
                upload_request eq_refl) as [Hread Hget].
  split.
  - apply (Hread (fun _ => mixed_upload) eq_refl eq_refl).
    split; [right; right; right; right; right; right; right; right; right;
            left; reflexivity|].
    split; [|reflexivity].
    intros [|[|k]] Hk.
    + do 4 right. left. reflexivity.
    + do 8 right. left. reflexivity.
    + simpl in Hk. lia.
  - apply (Hget (fun _ => mixed_upload') eq_refl eq_refl).
    split; [right; right; right; right; right; right; right; right; right;
            left; reflexivity|].
    split; [|reflexivity].
    intros [|[|k]] Hk.
    + do 4 right. left. reflexivity.
    + do 8 right. left. reflexivity.
    + simpl in Hk. lia.
Defined.

(* --------------------------------------------------------------------- *)
(** ** Multipart: any sequence of events, protocol or not *)
(* --------------------------------------------------------------------- *)

Section AnyEvents.

Context {F : Type}.
Variable make : F -> Buffer -> MultipartFormData.
Implicit Types (events seen rest : list (Event F)) (ev : Event F) (st : State F).

Lemma outer_react_no_joins st : joins st = [] -> outer (react st) = outer st.
Proof.
  intros Hj. unfold react. destruct (outer st) eqn:Ho; simpl;
    [rewrite Hj; reflexivity|exact Ho..].
Qed.

(** Before ['finish'] no [Promise.all] call exists, and only a decoder
    error touches the returned promise. *)
Lemma handle_no_joins st ev :
  joins st = [] ->
  ev <> OnFinish ->
  joins (handle make st ev) = []
  /\ outer (handle make st ev)
     = match ev, outer st with
       | OnError e, Pending => Rejected e
       | _, o => o
       end.
Proof.
  intros Hj Hev.
  destruct ev as [f|n v|k chunk|k|k e| |e]; simpl.
  - split; [exact Hj|]. destruct (outer st); reflexivity.
  - split; [exact Hj|]. destruct (outer st); reflexivity.
  - destruct (promises st !! k); simpl; (split; [exact Hj|]);
      destruct (outer st); reflexivity.
  - destruct (promises st !! k) as [u|]; [destruct (promise u)|];
      rewrite ?joins_react, ?outer_react_no_joins; simpl;
      try exact Hj; (split; [exact Hj|]); destruct (outer st); reflexivity.
  - destruct (promises st !! k) as [u|]; [destruct (promise u)|];
      rewrite ?joins_react, ?outer_react_no_joins; simpl;
      try exact Hj; (split; [exact Hj|]); destruct (outer st); reflexivity.
  - contradiction.
  - destruct (outer st) eqn:Ho; simpl; (split; [exact Hj|]);
      rewrite ?Ho; reflexivity.
Qed.

Lemma listen_without_finish events :
  ~ In OnFinish events ->
  joins (listen make events) = []
  /\ forall files, outer (listen make events) <> Fulfilled files.
Proof.
  induction events as [|ev events IH] using rev_ind; intros Hno.
  - split; [reflexivity|discriminate].
  - rewrite in_app_iff in Hno.
    destruct IH as [Hj Hnf]; [tauto|].
    assert (Hev : ev <> OnFinish) by (intros ->; apply Hno; right; left; reflexivity).
    rewrite listen_snoc.
    destruct (handle_no_joins (listen make events) ev Hj Hev) as [Hj' Ho'].
    split; [exact Hj'|]. intros files. rewrite Ho'.
    destruct ev; destruct (outer (listen make events)) eqn:Ho;
      try discriminate; exact (Hnf _).
Qed.

Lemma listen_before_ending events :
  decoder_endings events = [] ->
  joins (listen make events) = [] /\ outer (listen make events) = Pending.
Proof.
  induction events as [|ev events IH] using rev_ind; intros Hde.
  - split; reflexivity.
  - rewrite decoder_endings_snoc in Hde. apply app_eq_nil in Hde as [Hde Hev].
    destruct (IH Hde) as [Hj Ho].
    assert (Hnf : ev <> OnFinish) by (intros ->; discriminate Hev).
    rewrite listen_snoc.
    destruct (handle_no_joins (listen make events) ev Hj Hnf) as [Hj' Ho'].
    split; [exact Hj'|]. rewrite Ho', Ho.
    destruct ev; try reflexivity. discriminate Hev.
Qed.

Lemma listen_first_decoder_error seen e rest :
  decoder_endings seen = [] ->
  outer (listen make (seen ++ OnError e :: rest)) = Rejected e.
Proof.
  intros Hde. destruct (listen_before_ending seen Hde) as [_ Ho].
  assert (Herr : outer (listen make (seen ++ [OnError e])) = Rejected e).
  { rewrite listen_snoc. simpl. rewrite Ho. reflexivity. }
  change (seen ++ OnError e :: rest) with (seen ++ [OnError e] ++ rest).
  rewrite app_assoc, listen_settled; [exact Herr|].
  rewrite Herr. discriminate.
Qed.

End AnyEvents.

(** A file part's error alone is not propagated: the part's promise is
    rejected, and the returned promise stays pending until the decoder
    reports ['finish'] or ['error']. *)
Lemma part_error_waits_for_decoder :
  follows_protocol [OnFile hello_file; OnStreamError 0 unexpected_end] = true
  /\ outer (listen Read.make [OnFile hello_file; OnStreamError 0 unexpected_end])
     = Pending
  /\ outer (listen Read.make
              [OnFile hello_file; OnStreamError 0 unexpected_end; OnFinish])
     = Rejected unexpected_end.
Proof. split; [|split]; reflexivity. Qed.




(* --------------------------------------------------------------------- *)
(** ** Multipart: part promises without a handler *)
(* --------------------------------------------------------------------- *)

Section HandlerFacts.

Context {F : Type}.
Variable make : F -> Buffer -> MultipartFormData.
Implicit Types (events : list (Event F)).

(** The returned promise is all the caller is given.  When a part's
    stream fails and the decoder never reports ['finish'], no
    [Promise.all] call was made, and the part's promise is rejected
    without any handler. *)
Lemma part_rejection_without_handler events k e :
  follows_protocol events = true ->
  ~ In OnFinish events ->
  In (OnStreamError k e) events ->
  In e (rejected_without_handler (listen make events)).
Proof.
  intros Hp Hno Hin.
  destruct (listen_without_finish make events Hno) as [Hj _].
  pose proof (stream_error_declared events k e Hp Hin) as Hlt.
  destruct (declared_lookup make events k Hp Hlt) as (u & Hu & _ & _ & Hpr).
  apply In_OnStreamError_endings in Hin.
  unfold promise_of in Hpr.
  rewrite (single_ending _ _ (endings_at_most_one events k Hp) Hin) in Hpr.
  apply list_elem_of_In. unfold rejected_without_handler.
  apply list_elem_of_omap. exists (k, u). split.
  - apply list_elem_of_lookup. exists k.
    rewrite list_lookup_imap, Hu. reflexivity.
  - simpl. rewrite Hpr, Hj. reflexivity.
Qed.

End HandlerFacts.

(** On a body that ends inside a file part both the decoder and the
    part's stream report the error: the returned promise is rejected with
    the decoder's error, and the part's promise is rejected without a
    handler. *)
Example truncated_upload_part_rejection :
  outer (listen Read.make truncated_upload) = Rejected unexpected_end
  /\ rejected_without_handler (listen Read.make truncated_upload)
     = [unexpected_end].
Proof. split; reflexivity. Qed.

(* --------------------------------------------------------------------- *)
(** ** Multipart: the two extractors agree *)
(* --------------------------------------------------------------------- *)

Section Simulation.

Context {F : Type}.
Variable conv : F -> Part.
Variable make : F -> Buffer -> MultipartFormData.
Hypothesis make_conv : forall f buffer, make f buffer = record_of (conv f) buffer.

Lemma promise_map_upload (ps : list (Upload F)) :
  map promise (map (map_upload conv) ps) = map promise ps.
Proof. rewrite map_map. reflexivity. Qed.

Lemma join_result_map_upload (ps : list (Upload F)) (n : nat) :
  join_result (map (map_upload conv) ps) n = join_result ps n.
Proof.
  unfold join_result.
  change (take n (map (map_upload conv) ps))
    with (take n (map_upload conv <$> ps)).
  rewrite <- fmap_take.
  change (map promise (map_upload conv <$> take n ps))
    with (map promise (map (map_upload conv) (take n ps))).
  rewrite promise_map_upload. reflexivity.
Qed.

Lemma react_map_state (st : State F) :
  map_state conv (react st) = react (map_state conv st).
Proof.
  unfold react, map_state. simpl.
  destruct (outer st) eqn:Ho; simpl; rewrite ?Ho; try reflexivity.
  assert (Hjoins : map (join_result (map (map_upload conv) (promises st)))
                       (joins st)
                   = map (join_result (promises st)) (joins st)).
  { apply map_ext. intros n. apply join_result_map_upload. }
  rewrite Hjoins. reflexivity.
Qed.

Lemma handle_map_state (st : State F) (ev : Event F) :
  map_state conv (handle make st ev)
  = handle record_of (map_state conv st) (map_event conv ev).
Proof.
  destruct ev as [f|n v|k chunk|k|k e| |e]; simpl.
  - unfold map_state, set_promises. simpl. rewrite map_app. reflexivity.
  - reflexivity.
  - change (map (map_upload conv) (promises st) !! k)
      with ((map_upload conv <$> promises st) !! k).
    rewrite list_lookup_fmap.
    destruct (promises st !! k) as [u|]; simpl; [|reflexivity].
    unfold map_state, set_promises. simpl. f_equal.
    apply (list_fmap_insert (map_upload conv)).
  - change (map (map_upload conv) (promises st) !! k)
      with ((map_upload conv <$> promises st) !! k).
    rewrite list_lookup_fmap.
    destruct (promises st !! k) as [u|]; simpl; [|reflexivity].
    destruct (promise u); try reflexivity.
    rewrite react_map_state. f_equal.
    unfold map_state, set_promises. simpl. f_equal.
    rewrite <- make_conv. apply (list_fmap_insert (map_upload conv)).
  - change (map (map_upload conv) (promises st) !! k)
      with ((map_upload conv <$> promises st) !! k).
    rewrite list_lookup_fmap.
    destruct (promises st !! k) as [u|]; simpl; [|reflexivity].
    destruct (promise u); try reflexivity.
    rewrite react_map_state. f_equal.
    unfold map_state, set_promises. simpl. f_equal.
    apply (list_fmap_insert (map_upload conv)).
  - rewrite react_map_state. f_equal.
    unfold map_state. simpl. rewrite length_map. reflexivity.
  - unfold map_state. simpl.
    destruct (outer st) eqn:Ho; simpl; rewrite ?Ho; reflexivity.
Qed.

Lemma fold_handle_map_state (events : list (Event F)) (st : State F) :
  map_state conv (fold_left (handle make) events st)
  = fold_left (handle record_of) (map (map_event conv) events)
              (map_state conv st).
Proof.
  revert st. induction events as [|ev events IH]; intros st; simpl.
  - reflexivity.
  - rewrite IH, handle_map_state. reflexivity.
Qed.

(** The outcome depends on the events only through the field name,
    filename and MIME type of each file part. *)
Lemma outer_listen_view (events : list (Event F)) :
  outer (listen make events)
  = outer (listen record_of (map (map_event conv) events)).
Proof.
  transitivity (outer (map_state conv (listen make events))); [reflexivity|].
  unfold listen. rewrite fold_handle_map_state. reflexivity.
Qed.

End Simulation.

(** C10. [readMultipartFormData] and [getMultipartFormData] decide
    applicability alike on every request (one returns [null] exactly when
    the other does), and with decoders that deliver the same parts (same
    field names, filenames, MIME types and chunks, same errors) they give
    the same outcome: both [null], or the same list of records, or the
    same rejection, or both still pending. *)
Theorem extractors_agree :
  forall (busboy : Decoder Busboy.File) (Busboy : Decoder FastifyBusboy.File)
         (req : Request),
    Read.getContentType req = Get.getContentType req
    /\ (settled (Read.readMultipartFormData busboy req) = Fulfilled None
        <-> settled (Get.getMultipartFormData Busboy req) = Fulfilled None)
    /\ (same_delivery busboy Busboy ->
        Read.readMultipartFormData busboy req
        = Get.getMultipartFormData Busboy req).
Proof.
  intros busboy Busboy req.
  split; [reflexivity|]. split.
  - rewrite Read_run, Get_run.
    destruct (applicable req); [|tauto].
    destruct (busboy (headers req)) as [e|bb];
      destruct (Busboy (headers req)) as [e'|fb]; simpl; split; intros H;
      try discriminate H;
      exfalso; exact (await_files_not_null _ H).
  - intros Hsame. rewrite Read_run, Get_run.
    destruct (applicable req); [|reflexivity].
    specialize (Hsame (headers req)).
    destruct (busboy (headers req)) as [e|bb];
      destruct (Busboy (headers req)) as [e'|fb]; try contradiction.
    + subst e'. reflexivity.
    + f_equal. f_equal.
      rewrite (outer_listen_view Read.part_of Read.make (fun _ _ => eq_refl)).
      rewrite (outer_listen_view Get.part_of Get.make (fun _ _ => eq_refl)).
      rewrite Hsame. reflexivity.
Qed.

Lemma scripted_same_delivery :
  same_delivery (scripted failed_part_upload) (scripted failed_part_upload').
Proof. intros h body. reflexivity. Defined.

Lemma extractors_agree_witness :
  Read.readMultipartFormData (scripted failed_part_upload) upload_request
  = Get.getMultipartFormData (scripted failed_part_upload') upload_request
  /\ Read.readMultipartFormData (scripted failed_part_upload) json_request
     = Get.getMultipartFormData (scripted failed_part_upload') json_request.
Proof.
  split.
  - apply (proj2 (proj2 (extractors_agree (scripted failed_part_upload)
                           (scripted failed_part_upload') upload_request))
             scripted_same_delivery).
  - apply (proj2 (proj2 (extractors_agree (scripted failed_part_upload)
                           (scripted failed_part_upload') json_request))
             scripted_same_delivery).
Defined.

(* ===================================================================== *)
(** * Further properties *)
(* ===================================================================== *)

(* --------------------------------------------------------------------- *)
(** ** The SSE channel: what a whole session puts on the transport *)
(* --------------------------------------------------------------------- *)

Lemma has_flush_optional_call (present : bool) (c : Call) (r : Response) :
  has_flush (optional_call present c r) = has_flush r.
Proof. destruct present; reflexivity. Qed.

Lemma has_flush_act (w : World) (a : Action) :
  has_flush (res (act w a)) = has_flush (res w).
Proof.
  destruct a; simpl; unfold push, pushComment;
    rewrite ?has_flush_optional_call; reflexivity.
Qed.

Lemma has_flush_open (r : Response) : has_flush (res (open r)) = has_flush r.
Proof.
  unfold open, createServerSentEvent. simpl.
  rewrite has_flush_optional_call. reflexivity.
Qed.

Lemma calls_act (w : World) (a : Action) :
  calls (res (act w a))
  = calls (res w) ++ action_calls (has_flush (res w)) a.
Proof.
  destruct a as [chunk|chunk| |b]; simpl.
  - apply calls_push.
  - apply calls_pushComment.
  - reflexivity.
  - rewrite app_nil_r. reflexivity.
Qed.

Lemma calls_run (acts : list Action) (w : World) :
  calls (res (run w acts))
  = calls (res w) ++ flat_map (action_calls (has_flush (res w))) acts.
Proof.
  unfold run. revert w. induction acts as [|a acts IH]; intros w; simpl.
  - rewrite app_nil_r. reflexivity.
  - rewrite IH, calls_act, has_flush_act, <- app_assoc. reflexivity.
Qed.

(** X1. After a channel is opened, the calls made on the transport are,
    in the order of use, exactly those of each operation: [push] writes
    its chunk unchanged with encoding utf8, [pushComment] writes the
    framed comment, [close] calls [end] without arguments, and every write
    is followed by [flush] exactly when the transport has that method.
    Nothing is dropped, merged, reordered or added, whether or not the
    response was closed in between. *)
Theorem channel_session_calls :
  forall (r : Response) (acts : list Action),
    calls (res (run (open r) acts))
    = calls (res (open r))
      ++ flat_map (fun a =>
                     match a with
                     | DoPush chunk =>
                         Write chunk "utf8"
                         :: (if has_flush r then [Flush] else [])
                     | DoPushComment text =>
                         Write (comment_of text) "utf8"
                         :: (if has_flush r then [Flush] else [])
                     | DoClose => [End []]
                     | TransportClosed _ => []
                     end) acts.
Proof.
  intros r acts. rewrite calls_run, has_flush_open. reflexivity.
Qed.

Lemma filter_is_end_action_calls (flush : bool) (a : Action) :
  filter (fun c => is_end c) (action_calls flush a)
  = if is_close a then [End []] else [].
Proof. destruct a; destruct flush; reflexivity. Qed.

Lemma filter_is_end_session (flush : bool) (acts : list Action) :
  filter (fun c => is_end c) (flat_map (action_calls flush) acts)
  = map (fun _ => End []) (filter (fun a => is_close a) acts).
Proof.
  induction acts as [|a acts IH]; simpl; [reflexivity|].
  rewrite filter_app, IH, filter_is_end_action_calls.
  destruct a; reflexivity.
Qed.

(** X2. The response is ended once per [close()] call and by nothing
    else: after any session on a response that had no [end] call before,
    the [end] calls are all without arguments and there are as many as
    [close()] calls; opening, [push] and [pushComment] never end it. *)
Theorem close_ends_once_per_call :
  forall (r : Response) (acts : list Action),
    filter (fun c => is_end c) (calls r) = [] ->
    filter (fun c => is_end c) (calls (res (run (open r) acts)))
    = map (fun _ => End []) (filter (fun a => is_close a) acts).
Proof.
  intros r acts Hnone.
  rewrite calls_run, open_res, createServerSentEvent_calls.
  rewrite !filter_app, Hnone, filter_is_end_session.
  destruct (has_flushHeaders r); reflexivity.
Qed.

Lemma close_ends_once_per_call_witness :
  filter (fun c => is_end c)
    (calls (res (run (open (fresh_response true false false))
                     [DoPush "data: x"; DoClose; DoPushComment "late";
                      TransportClosed true; DoClose])))
  = [End []; End []].
Proof.
  apply (close_ends_once_per_call (fresh_response true false false)
           [DoPush "data: x"; DoClose; DoPushComment "late";
            TransportClosed true; DoClose]).
  reflexivity.
Defined.

(* --------------------------------------------------------------------- *)
(** ** The SSE channel: the shape of a comment *)
(* --------------------------------------------------------------------- *)

Lemma has_char_append (c : ascii) (s t : string) :
  has_char c (s ++ t) = has_char c s || has_char c t.
Proof.
  induction s as [|d s IH]; simpl; [reflexivity|].
  rewrite IH, orb_assoc. reflexivity.
Qed.

Lemma append_empty_r (s : string) : (s ++ "")%string = s.
Proof.
  induction s as [|c s IH]; [reflexivity|].
  change (String c (s ++ "")%string = String c s). rewrite IH. reflexivity.
Qed.

Lemma append_assoc (s t u : string) :
  ((s ++ t) ++ u)%string = (s ++ (t ++ u))%string.
Proof.
  induction s as [|c s IH]; [reflexivity|].
  change (String c ((s ++ t) ++ u)%string = String c (s ++ (t ++ u))%string).
  rewrite IH. reflexivity.
Qed.

Lemma join_snoc (lines : list string) (x sep : string) :
  lines <> [] ->
  join (lines ++ [x]) sep = (join lines sep ++ sep ++ x)%string.
Proof.
  induction lines as [|y lines IH]; intros Hne; [contradiction|].
  destruct lines as [|z lines].
  - reflexivity.
  - change ((y :: z :: lines) ++ [x]) with (y :: z :: (lines ++ [x])).
    rewrite !join_cons_cons.
    change (z :: lines ++ [x]) with ((z :: lines) ++ [x]).
    rewrite IH by discriminate.
    rewrite !append_assoc. reflexivity.
Qed.

(** A string without the separator is a single piece. *)
Lemma split_free (s : string) (sep : ascii) :
  has_char sep s = false -> split s sep = [s].
Proof.
  induction s as [|c s IH]; simpl; intros H; [reflexivity|].
  apply orb_false_iff in H as [Hc Hs].
  rewrite Hc, (IH Hs). reflexivity.
Qed.

Lemma split_append (s rest : string) (sep : ascii) :
  has_char sep s = false ->
  split (s ++ String sep rest) sep = s :: split rest sep.
Proof.
  induction s as [|c s IH]; simpl; intros H.
  - rewrite Ascii.eqb_refl. reflexivity.
  - apply orb_false_iff in H as [Hc Hs].
    rewrite Hc, (IH Hs). reflexivity.
Qed.

(** Splitting undoes joining, for pieces without the separator. *)
Lemma split_join (lines : list string) (sep : ascii) :
  lines <> [] ->
  Forall (fun line => has_char sep line = false) lines ->
  split (join lines (String sep "")) sep = lines.
Proof.
  induction lines as [|x lines IH]; intros Hne Hfree; [contradiction|].
  inversion Hfree as [|? ? Hx Hrest]; subst.
  destruct lines as [|y lines].
  - apply split_free. exact Hx.
  - rewrite join_cons_cons.
    change (String sep "" ++ join (y :: lines) (String sep ""))%string
      with (String sep (join (y :: lines) (String sep ""))).
    rewrite (split_append x _ sep Hx), IH; [reflexivity|discriminate|exact Hrest].
Qed.

(** The lines of a comment, without the two empty lines that end it. *)
Lemma comment_of_lines (text : string) :
  comment_of text
  = (join (if truthy text
           then map (fun line => ": " ++ line) (split text LF)
           else [":"]) nl ++ nl ++ nl)%string.
Proof. unfold comment_of. destruct (truthy text); reflexivity. Qed.

Lemma comment_lines_nonempty (text : string) :
  (if truthy text
   then map (fun line => (": " ++ line)%string) (split text LF)
   else [":"]) <> [].
Proof.
  destruct (truthy text); [|discriminate].
  pose proof (split_nonempty text LF) as Hne.
  destruct (split text LF); [contradiction|discriminate].
Qed.

Lemma comment_lines_shape (text : string) :
  Forall (fun line => String.prefix ":" line = true
                      /\ has_char LF line = false)
         (if truthy text
          then map (fun line => (": " ++ line)%string) (split text LF)
          else [":"]).
Proof.
  destruct (truthy text).
  - apply List.Forall_map.
    eapply List.Forall_impl; [|apply (split_no_sep text LF)].
    intros line Hline. split; [reflexivity|]. exact Hline.
  - constructor; [split; reflexivity|constructor].
Qed.

Lemma comment_of_join (text : string) :
  comment_of text
  = join ((if truthy text
           then map (fun line => (": " ++ line)%string) (split text LF)
           else [":"]) ++ [""; ""]) nl.
Proof.
  rewrite comment_of_lines.
  pose proof (comment_lines_nonempty text) as Hne.
  set (lines := if truthy text
                then map (fun line => (": " ++ line)%string) (split text LF)
                else [":"]) in *.
  change (lines ++ [""; ""]) with (lines ++ [""] ++ [""]).
  rewrite app_assoc.
  rewrite join_snoc; [|destruct lines; discriminate].
  rewrite join_snoc; [|exact Hne].
  rewrite !append_empty_r, append_assoc. reflexivity.
Qed.

Lemma split_comment (text : string) :
  split (comment_of text) LF
  = (if truthy text
     then map (fun line => (": " ++ line)%string) (split text LF)
     else [":"]) ++ [""; ""].
Proof.
  rewrite comment_of_join. apply split_join.
  - pose proof (comment_lines_nonempty text) as Hne.
    destruct (if truthy text
              then map (fun line => (": " ++ line)%string) (split text LF)
              else [":"]); [contradiction|discriminate].
  - apply Forall_app. split.
    + eapply List.Forall_impl; [|apply comment_lines_shape].
      intros line [_ H]. exact H.
    + repeat constructor.
Qed.

(** X3. Whatever the text, the chunk [pushComment] writes is a block of
    lines, each beginning with a colon and none containing a line feed,
    joined by single line feeds and closed by an empty line: read line by
    line at line feeds, the chunk holds comment lines only. *)
Theorem comment_is_colon_lines :
  forall text : string,
    exists lines : list string,
      lines <> []
      /\ Forall (fun line => String.prefix ":" line = true
                             /\ has_char LF line = false) lines
      /\ comment_of text = (join lines nl ++ nl ++ nl)%string
      /\ split (comment_of text) LF = lines ++ [""; ""].
Proof.
  intros text.
  exists (if truthy text
          then map (fun line => (": " ++ line)%string) (split text LF)
          else [":"]).
  split; [apply comment_lines_nonempty|].
  split; [apply comment_lines_shape|].
  split; [apply comment_of_lines|].
  apply split_comment.
Qed.

Lemma map_prefix_inj (p : string) (l1 l2 : list string) :
  map (fun line => (p ++ line)%string) l1 = map (fun line => (p ++ line)%string) l2 ->
  l1 = l2.
Proof.
  revert l2. induction l1 as [|x l1 IH]; intros [|y l2] H;
    try discriminate H; [reflexivity|].
  simpl in H. injection H as Hxy Hrest.
  apply (inj (String.app p)) in Hxy. rewrite Hxy, (IH l2 Hrest). reflexivity.
Qed.

Lemma truthy_false_empty (s : string) : truthy s = false -> s = "".
Proof. destruct s; [reflexivity|discriminate]. Qed.

Lemma comment_of_inj (t1 t2 : string) :
  comment_of t1 = comment_of t2 -> t1 = t2.
Proof.
  intros H. apply (f_equal (fun s => split s LF)) in H.
  rewrite !split_comment in H. apply app_inv_tail in H.
  destruct (truthy t1) eqn:H1; destruct (truthy t2) eqn:H2.
  - apply map_prefix_inj in H.
    rewrite <- (join_split t1 LF), <- (join_split t2 LF), H. reflexivity.
  - exfalso. destruct (split t1 LF) as [|x [|y l]]; discriminate H.
  - exfalso. destruct (split t2 LF) as [|x [|y l]]; discriminate H.
  - rewrite (truthy_false_empty t1 H1), (truthy_false_empty t2 H2).
    reflexivity.
Qed.

(** X4. Different texts give different comment chunks: the text of a
    comment, line feeds included, can be read back from what
    [pushComment] writes. *)
Theorem distinct_texts_distinct_comments :
  forall t1 t2 : string, t1 <> t2 -> comment_of t1 <> comment_of t2.
Proof. intros t1 t2 Hne H. apply Hne. exact (comment_of_inj t1 t2 H). Qed.

Lemma distinct_texts_distinct_comments_witness :
  comment_of "" <> comment_of (String LF "")
  /\ comment_of "a" <> comment_of ("a" ++ nl)%string.
Proof.
  split.
  - apply (distinct_texts_distinct_comments "" (String LF "")). discriminate.
  - apply (distinct_texts_distinct_comments "a" ("a" ++ nl)%string). discriminate.
Defined.

(* --------------------------------------------------------------------- *)
(** ** Validation: the two modes and the options *)
(* --------------------------------------------------------------------- *)

(** X5. The unsafe mode is the safe mode unwrapped: it returns the data of
    a success outcome and throws, with the failure's message and cause,
    on a failure outcome; so all options that do not ask for the safe
    mode (absent, [{}], [{ safe: false }]) behave alike; for the query
    and for the params reader. *)
Theorem unsafe_mode_unwraps_safe_mode :
  forall (req : Request) (schema : Schema) (options : option Options),
    safe_requested options = false ->
    readValidatedQuery req schema options
    = match readValidatedQuery req schema (Some {| safe := Some true |}) with
      | Return (Outcome (Success data)) => Return (Data data)
      | Return (Outcome (Failure error)) =>
          Throw {| message := zmessage error; cause := zcause error |}
      | other => other
      end
    /\ readValidatedParams req schema options
       = match readValidatedParams req schema (Some {| safe := Some true |}) with
         | Return (Outcome (Success data)) => Return (Data data)
         | Return (Outcome (Failure error)) =>
             Throw {| message := zmessage error; cause := zcause error |}
         | other => other
         end
    /\ readValidatedQuery req schema options
       = readValidatedQuery req schema None
    /\ readValidatedParams req schema options
       = readValidatedParams req schema None.
Proof.
  intros req schema options Hmode.
  unfold readValidatedQuery, readValidatedParams. rewrite Hmode. simpl.
  split; [|split; [|split]].
  - destruct (safeParse schema (query req)); reflexivity.
  - destruct (safeParse schema (params req)); reflexivity.
  - reflexivity.
  - reflexivity.
Qed.

Lemma unsafe_mode_unwraps_safe_mode_witness :
  readValidatedQuery (request_with (JNum 3)) string_schema
    (Some {| safe := Some false |})
  = readValidatedQuery (request_with (JNum 3)) string_schema None
  /\ readValidatedParams (request_with (JStr "id")) string_schema
       (Some {| safe := None |})
     = readValidatedParams (request_with (JStr "id")) string_schema None.
Proof.
  split.
  - apply (unsafe_mode_unwraps_safe_mode (request_with (JNum 3)) string_schema
             (Some {| safe := Some false |})). reflexivity.
  - apply (unsafe_mode_unwraps_safe_mode (request_with (JStr "id"))
             string_schema (Some {| safe := None |})). reflexivity.
Defined.

(* --------------------------------------------------------------------- *)
(** ** Multipart: any sequence of events, at the two extractors *)
(* --------------------------------------------------------------------- *)


(** X6. Whatever events the decoder emits, in any order: as long as it
    has reported neither ['finish'] nor ['error'] the returned promise is
    pending, and without a ['finish'] it is never fulfilled; so a decoder
    that never completes leaves the caller waiting; for both
    extractors. *)
Theorem pending_until_decoder_completes :
  forall (busboy : Decoder Busboy.File) (Busboy : Decoder FastifyBusboy.File)
         (req : Request),
    applicable req = true ->
    (forall bb : list Buffer -> list (Event Busboy.File),
        busboy (headers req) = Built bb ->
        (decoder_endings (bb (stream req)) = [] ->
         settled (Read.readMultipartFormData busboy req) = Pending)
        /\ (forall files,
               ~ In OnFinish (bb (stream req)) ->
               settled (Read.readMultipartFormData busboy req)
               <> Fulfilled (Some files)))
    /\ (forall fb : list Buffer -> list (Event FastifyBusboy.File),
        Busboy (headers req) = Built fb ->
        (decoder_endings (fb (stream req)) = [] ->
         settled (Get.getMultipartFormData Busboy req) = Pending)
        /\ (forall files,
               ~ In OnFinish (fb (stream req)) ->
               settled (Get.getMultipartFormData Busboy req)
               <> Fulfilled (Some files))).
Proof.
  intros busboy Busboy req Ha. split.
  - intros bb Hb. rewrite (Read_settled busboy req bb Ha Hb). split.
    + intros Hde.
      rewrite (proj2 (listen_before_ending Read.make _ Hde)). reflexivity.
    + intros files Hno Hful. apply await_files_fulfilled in Hful.
      exact (proj2 (listen_without_finish Read.make _ Hno) files Hful).
  - intros fb Hb. rewrite (Get_settled Busboy req fb Ha Hb). split.
    + intros Hde.
      rewrite (proj2 (listen_before_ending Get.make _ Hde)). reflexivity.
    + intros files Hno Hful. apply await_files_fulfilled in Hful.
      exact (proj2 (listen_without_finish Get.make _ Hno) files Hful).
Qed.

Lemma pending_until_decoder_completes_witness :
  settled (Read.readMultipartFormData
             (scripted [OnFile hello_file; OnData 0 binary; OnEnd 0;
                        OnEnd 0; OnData 7 binary])
             upload_request)
  = Pending
  /\ settled (Get.getMultipartFormData
                (scripted [OnFile hello_file'; OnStreamError 0 unexpected_end])
                upload_request)
     = Pending.
Proof.
  pose proof (pending_until_decoder_completes
                (scripted [OnFile hello_file; OnData 0 binary; OnEnd 0;
                           OnEnd 0; OnData 7 binary])
                (scripted [OnFile hello_file'; OnStreamError 0 unexpected_end])
                upload_request eq_refl) as [Hread Hget].
  split.
  - apply (Hread (fun _ => [OnFile hello_file; OnData 0 binary; OnEnd 0;
                            OnEnd 0; OnData 7 binary]) eq_refl).
    reflexivity.
  - apply (Hget (fun _ => [OnFile hello_file'; OnStreamError 0 unexpected_end])
             eq_refl).
    reflexivity.
Defined.

(** X7. Whatever events the decoder emits, in any order: the first
    ['error'] of the decoder, when no ['finish'] came before it, rejects
    the returned promise with exactly the value the decoder gave (it is
    not wrapped, even when it is no [Error]), and nothing that follows
    changes that; for both extractors. *)
Theorem first_decoder_error_rejects :
  forall (busboy : Decoder Busboy.File) (Busboy : Decoder FastifyBusboy.File)
         (req : Request) (e : Thrown),
    applicable req = true ->
    (forall (bb : list Buffer -> list (Event Busboy.File)) seen rest,
        busboy (headers req) = Built bb ->
        bb (stream req) = seen ++ OnError e :: rest ->
        decoder_endings seen = [] ->
        settled (Read.readMultipartFormData busboy req) = Rejected e)
    /\ (forall (fb : list Buffer -> list (Event FastifyBusboy.File)) seen rest,
        Busboy (headers req) = Built fb ->
        fb (stream req) = seen ++ OnError e :: rest ->
        decoder_endings seen = [] ->
        settled (Get.getMultipartFormData Busboy req) = Rejected e).
Proof.
  intros busboy Busboy req e Ha. split.
  - intros bb seen rest Hb Heq Hde.
    rewrite (Read_settled busboy req bb Ha Hb), Heq.
    rewrite (listen_first_decoder_error Read.make seen e rest Hde). reflexivity.
  - intros fb seen rest Hb Heq Hde.
    rewrite (Get_settled Busboy req fb Ha Hb), Heq.
    rewrite (listen_first_decoder_error Get.make seen e rest Hde). reflexivity.
Qed.

Lemma first_decoder_error_rejects_witness :
  settled (Read.readMultipartFormData
             (scripted [OnFile hello_file; OnError (OtherValue JNull);
                        OnEnd 0; OnFinish; OnError unexpected_end])
             upload_request)
  = Rejected (OtherValue JNull)
  /\ settled (Get.getMultipartFormData
                (scripted [OnFile hello_file'; OnError (OtherValue JNull);
                           OnEnd 0; OnFinish; OnError unexpected_end])
                upload_request)
     = Rejected (OtherValue JNull).
Proof.
  pose proof (first_decoder_error_rejects
                (scripted [OnFile hello_file; OnError (OtherValue JNull);
                           OnEnd 0; OnFinish; OnError unexpected_end])
                (scripted [OnFile hello_file'; OnError (OtherValue JNull);
                           OnEnd 0; OnFinish; OnError unexpected_end])
                upload_request (OtherValue JNull) eq_refl) as [Hread Hget].
  split.
  - apply (Hread (fun _ => [OnFile hello_file; OnError (OtherValue JNull);
                            OnEnd 0; OnFinish; OnError unexpected_end])
             [OnFile hello_file] [OnEnd 0; OnFinish; OnError unexpected_end]);
      reflexivity.
  - apply (Hget (fun _ => [OnFile hello_file'; OnError (OtherValue JNull);
                           OnEnd 0; OnFinish; OnError unexpected_end])
             [OnFile hello_file'] [OnEnd 0; OnFinish; OnError unexpected_end]);
      reflexivity.
Defined.

(* --------------------------------------------------------------------- *)
(** ** Multipart: further consequences of the stream protocol *)
(* --------------------------------------------------------------------- *)

Section ProtocolFacts.

Context {F : Type}.
Variable make : F -> Buffer -> MultipartFormData.
Implicit Types (events : list (Event F)).

(** Where a rejection comes from. *)
Lemma listen_rejected_cause events e :
  follows_protocol events = true ->
  outer (listen make events) = Rejected e ->
  In (OnError e) events
  \/ (In OnFinish events
      /\ exists (j : nat) (e' : Thrown),
           In (OnStreamError j e') events /\ e = wrap e').
Proof.
  intros Hp Hrej. pose proof (listen_inv make events Hp) as [_ Hup Hout].
  destruct (decoder_endings events) as [|[|e0] l] eqn:Hde.
  - destruct Hout as [_ Ho]. congruence.
  - right. split.
    { apply In_OnFinish_decoder_endings. rewrite Hde. left. reflexivity. }
    destruct Hout as [_ Hok]. unfold outer_ok in Hok.
    destruct (Promise_all (map promise (promises (listen make events))))
      as [|files|e1].
    + congruence.
    + congruence.
    + destruct Hok as (j & e' & Hj & Ho).
      exists j, e'. split; [|congruence].
      rewrite list_lookup_fmap in Hj.
      destruct (promises (listen make events) !! j) as [v|] eqn:Hv;
        [|discriminate Hj].
      simpl in Hj. injection Hj as Hj.
      destruct (Hup j v Hv) as [_ Hprv]. rewrite Hprv in Hj.
      unfold promise_of in Hj.
      apply In_OnStreamError_endings.
      destruct (endings j events) as [|[|e2] l']; try discriminate Hj.
      injection Hj as ->. left. reflexivity.
  - left. apply In_OnError_decoder_endings. rewrite Hde.
    left. congruence.
Qed.

(** The records depend on the chunks of a part only through their
    concatenation. *)
Lemma records_chunking events1 events2 :
  declared events1 = declared events2 ->
  (forall k, Buffer_concat (received k events1)
             = Buffer_concat (received k events2)) ->
  records make events1 = records make events2.
Proof.
  intros Hd Hc. apply list_eq. intros k.
  rewrite !records_lookup, Hd, Hc. reflexivity.
Qed.

End ProtocolFacts.

Lemma wrap_is_error (e : Thrown) : exists message, wrap e = ErrorObject message.
Proof. destruct e as [m|v]; simpl; eauto. Qed.

(** X9. For an applicable request whose decoder follows the stream
    protocol, the returned promise is rejected only for a reported error:
    either with the very value of the decoder's ['error'], or, after
    ['finish'], with the error of a failed file part, which is then always
    an [Error] (the part's own when it is one, a generic one otherwise);
    for both extractors. *)
Theorem rejected_only_for_reported_errors :
  forall (busboy : Decoder Busboy.File) (Busboy : Decoder FastifyBusboy.File)
         (req : Request) (e : Thrown),
    applicable req = true ->
    (forall bb : list Buffer -> list (Event Busboy.File),
        busboy (headers req) = Built bb ->
        follows_protocol (bb (stream req)) = true ->
        settled (Read.readMultipartFormData busboy req) = Rejected e ->
        In (OnError e) (bb (stream req))
        \/ (In OnFinish (bb (stream req))
            /\ (exists (j : nat) (e' : Thrown),
                   In (OnStreamError j e') (bb (stream req))
                   /\ e = match e' with
                          | ErrorObject _ => e'
                          | OtherValue _ =>
                              ErrorObject
                                "An error occurred while parsing multipart form data"
                          end)
            /\ exists message, e = ErrorObject message))
    /\ (forall fb : list Buffer -> list (Event FastifyBusboy.File),
        Busboy (headers req) = Built fb ->
        follows_protocol (fb (stream req)) = true ->
        settled (Get.getMultipartFormData Busboy req) = Rejected e ->
        In (OnError e) (fb (stream req))
        \/ (In OnFinish (fb (stream req))
            /\ (exists (j : nat) (e' : Thrown),
                   In (OnStreamError j e') (fb (stream req))
                   /\ e = match e' with
                          | ErrorObject _ => e'
                          | OtherValue _ =>
                              ErrorObject
                                "An error occurred while parsing multipart form data"
                          end)
            /\ exists message, e = ErrorObject message)).
Proof.
  intros busboy Busboy req e Ha. split.
  - intros bb Hb Hp Hrej.
    rewrite (Read_settled busboy req bb Ha Hb) in Hrej.
    apply await_files_rejected in Hrej.
    destruct (listen_rejected_cause Read.make _ e Hp Hrej)
      as [Herr|(Hfin & j & e' & Hj & ->)]; [left; exact Herr|right].
    split; [exact Hfin|]. split; [exists j, e'; split; [exact Hj|reflexivity]|].
    apply wrap_is_error.
  - intros fb Hb Hp Hrej.
    rewrite (Get_settled Busboy req fb Ha Hb) in Hrej.
    apply await_files_rejected in Hrej.
    destruct (listen_rejected_cause Get.make _ e Hp Hrej)
      as [Herr|(Hfin & j & e' & Hj & ->)]; [left; exact Herr|right].
    split; [exact Hfin|]. split; [exists j, e'; split; [exact Hj|reflexivity]|].
    apply wrap_is_error.
Qed.

Lemma rejected_only_for_reported_errors_witness :
  (In (OnError (ErrorObject "An error occurred while parsing multipart form data"))
      failed_part_upload
   \/ (In OnFinish failed_part_upload
       /\ (exists (j : nat) (e' : Thrown),
              In (OnStreamError j e') failed_part_upload
              /\ ErrorObject "An error occurred while parsing multipart form data"
                 = match e' with
                   | ErrorObject _ => e'
                   | OtherValue _ =>
                       ErrorObject
                         "An error occurred while parsing multipart form data"
                   end)
       /\ exists message,
            ErrorObject "An error occurred while parsing multipart form data"
            = ErrorObject message))
  /\ (In (OnError unexpected_end) truncated_upload'
      \/ (In OnFinish truncated_upload'
          /\ (exists (j : nat) (e' : Thrown),
                 In (OnStreamError j e') truncated_upload'
                 /\ unexpected_end
                    = match e' with
                      | ErrorObject _ => e'
                      | OtherValue _ =>
                          ErrorObject
                            "An error occurred while parsing multipart form data"
                      end)
          /\ exists message, unexpected_end = ErrorObject message)).
Proof.
  split.
  - apply (proj1 (rejected_only_for_reported_errors
                    (scripted failed_part_upload) (scripted failed_part_upload')
                    upload_request
                    (ErrorObject "An error occurred while parsing multipart form data")
                    eq_refl)
             (fun _ => failed_part_upload)); reflexivity.
  - apply (proj2 (rejected_only_for_reported_errors
                    (scripted truncated_upload) (scripted truncated_upload')
                    upload_request unexpected_end eq_refl)
             (fun _ => truncated_upload')); reflexivity.
Defined.

(** X10. For applicable requests whose decoders follow the stream
    protocol: two deliveries of the same file parts whose streams carry
    the same bytes, however cut into chunks (empty chunks included) and
    however the streams' events are interleaved, resolve to the same list
    of records; for both extractors. *)
Theorem chunking_does_not_matter :
  forall (req1 req2 : Request) (files1 files2 : list MultipartFormData),
    applicable req1 = true ->
    applicable req2 = true ->
    (forall (busboy1 busboy2 : Decoder Busboy.File)
            (bb1 bb2 : list Buffer -> list (Event Busboy.File)),
        busboy1 (headers req1) = Built bb1 ->
        busboy2 (headers req2) = Built bb2 ->
        follows_protocol (bb1 (stream req1)) = true ->
        follows_protocol (bb2 (stream req2)) = true ->
        declared (bb1 (stream req1)) = declared (bb2 (stream req2)) ->
        (forall k, Buffer_concat (received k (bb1 (stream req1)))
                   = Buffer_concat (received k (bb2 (stream req2)))) ->
        settled (Read.readMultipartFormData busboy1 req1)
        = Fulfilled (Some files1) ->
        settled (Read.readMultipartFormData busboy2 req2)
        = Fulfilled (Some files2) ->
        files1 = files2)
    /\ (forall (Busboy1 Busboy2 : Decoder FastifyBusboy.File)
               (fb1 fb2 : list Buffer -> list (Event FastifyBusboy.File)),
        Busboy1 (headers req1) = Built fb1 ->
        Busboy2 (headers req2) = Built fb2 ->
        follows_protocol (fb1 (stream req1)) = true ->
        follows_protocol (fb2 (stream req2)) = true ->
        declared (fb1 (stream req1)) = declared (fb2 (stream req2)) ->
        (forall k, Buffer_concat (received k (fb1 (stream req1)))
                   = Buffer_concat (received k (fb2 (stream req2)))) ->
        settled (Get.getMultipartFormData Busboy1 req1)
        = Fulfilled (Some files1) ->
        settled (Get.getMultipartFormData Busboy2 req2)
        = Fulfilled (Some files2) ->
        files1 = files2).
Proof.
  intros req1 req2 files1 files2 Ha1 Ha2. split.
  - intros busboy1 busboy2 bb1 bb2 Hb1 Hb2 Hp1 Hp2 Hd Hc H1 H2.
    rewrite (Read_settled busboy1 req1 bb1 Ha1 Hb1) in H1.
    rewrite (Read_settled busboy2 req2 bb2 Ha2 Hb2) in H2.
    apply await_files_fulfilled in H1, H2.
    apply (listen_fulfilled Read.make _ _ Hp1) in H1 as (_ & _ & ->).
    apply (listen_fulfilled Read.make _ _ Hp2) in H2 as (_ & _ & ->).
    apply records_chunking; assumption.
  - intros Busboy1 Busboy2 fb1 fb2 Hb1 Hb2 Hp1 Hp2 Hd Hc H1 H2.
    rewrite (Get_settled Busboy1 req1 fb1 Ha1 Hb1) in H1.
    rewrite (Get_settled Busboy2 req2 fb2 Ha2 Hb2) in H2.
    apply await_files_fulfilled in H1, H2.
    apply (listen_fulfilled Get.make _ _ Hp1) in H1 as (_ & _ & ->).
    apply (listen_fulfilled Get.make _ _ Hp2) in H2 as (_ & _ & ->).
    apply records_chunking; assumption.
Qed.

Lemma chunking_does_not_matter_witness :
  [hello_record; bin_record] = [hello_record; bin_record].
Proof.
  apply (proj1 (chunking_does_not_matter upload_request upload_request
                  [hello_record; bin_record] [hello_record; bin_record]
                  eq_refl eq_refl)
           (scripted mixed_upload) (scripted rechunked_upload)
           (fun _ => mixed_upload) (fun _ => rechunked_upload));
    try reflexivity.
  intros [|[|k]]; reflexivity.
Defined.

(** X11. For an applicable request whose decoder follows the stream
    protocol: a body without any file part (fields only, or empty)
    resolves to the empty list as soon as the decoder finishes, and a
    resolved list always has as many records as file parts were declared;
    for both extractors. *)
Theorem body_without_files_resolves_empty :
  forall (busboy : Decoder Busboy.File) (Busboy : Decoder FastifyBusboy.File)
         (req : Request),
    applicable req = true ->
    (forall bb : list Buffer -> list (Event Busboy.File),
        busboy (headers req) = Built bb ->
        follows_protocol (bb (stream req)) = true ->
        (declared (bb (stream req)) = [] ->
         In OnFinish (bb (stream req)) ->
         settled (Read.readMultipartFormData busboy req) = Fulfilled (Some []))
        /\ (forall files,
               settled (Read.readMultipartFormData busboy req)
               = Fulfilled (Some files) ->
               length files = length (declared (bb (stream req)))))
    /\ (forall fb : list Buffer -> list (Event FastifyBusboy.File),
        Busboy (headers req) = Built fb ->
        follows_protocol (fb (stream req)) = true ->
        (declared (fb (stream req)) = [] ->
         In OnFinish (fb (stream req)) ->
         settled (Get.getMultipartFormData Busboy req) = Fulfilled (Some []))
        /\ (forall files,
               settled (Get.getMultipartFormData Busboy req)
               = Fulfilled (Some files) ->
               length files = length (declared (fb (stream req))))).
Proof.
  intros busboy Busboy req Ha. split.
  - intros bb Hb Hp. rewrite (Read_settled busboy req bb Ha Hb). split.
    + intros Hd Hfin. apply await_files_fulfilled.
      apply (listen_fulfilled Read.make _ _ Hp).
      split; [exact Hfin|]. split.
      * intros k Hk. rewrite Hd in Hk. simpl in Hk. lia.
      * unfold records. rewrite Hd. reflexivity.
    + intros files Hful. apply await_files_fulfilled in Hful.
      apply (listen_fulfilled Read.make _ _ Hp) in Hful as (_ & _ & ->).
      unfold records. apply length_imap.
  - intros fb Hb Hp. rewrite (Get_settled Busboy req fb Ha Hb). split.
    + intros Hd Hfin. apply await_files_fulfilled.
      apply (listen_fulfilled Get.make _ _ Hp).
      split; [exact Hfin|]. split.
      * intros k Hk. rewrite Hd in Hk. simpl in Hk. lia.
      * unfold records. rewrite Hd. reflexivity.
    + intros files Hful. apply await_files_fulfilled in Hful.
      apply (listen_fulfilled Get.make _ _ Hp) in Hful as (_ & _ & ->).
      unfold records. apply length_imap.
Qed.

Lemma body_without_files_resolves_empty_witness :
  settled (Read.readMultipartFormData (scripted fields_only_upload)
             upload_request)
  = Fulfilled (Some [])
  /\ settled (Get.getMultipartFormData (scripted fields_only_upload')
                upload_request)
     = Fulfilled (Some []).
Proof.
  pose proof (body_without_files_resolves_empty
                (scripted fields_only_upload) (scripted fields_only_upload')
                upload_request eq_refl) as [Hread Hget].
  split.
  - apply (proj1 (Hread (fun _ => fields_only_upload) eq_refl eq_refl));
      [reflexivity|].
    do 2 right. left. reflexivity.
  - apply (proj1 (Hget (fun _ => fields_only_upload') eq_refl eq_refl));
      [reflexivity|].
    do 2 right. left. reflexivity.
Defined.

(* --------------------------------------------------------------------- *)
(** ** Multipart: the applicability check is case sensitive *)
(* --------------------------------------------------------------------- *)

(** X12. A content-type header whose first character is not a lower-case
    ['m'] (an upper-case [Multipart/form-data], a leading space, the empty
    string) makes both extractors return [null] without building a
    decoder or piping the request. *)
Theorem first_character_must_be_m :
  forall (busboy : Decoder Busboy.File) (Busboy : Decoder FastifyBusboy.File)
         (req : Request) (contentType : string),
    headers req !! "content-type" = Some contentType ->
    charCodeAt contentType 0 <> Some 109%N ->
    Read.readMultipartFormData busboy req
    = {| settled := Fulfilled None; piped := false |}
    /\ Get.getMultipartFormData Busboy req
       = {| settled := Fulfilled None; piped := false |}.
Proof.
  intros busboy Busboy req ct Hct Hm.
  assert (Ha : applicable req = false).
  { unfold applicable. rewrite Hct.
    destruct (String.prefix "multipart/form-data" ct) eqn:Hp; [|reflexivity].
    destruct (startsWith_multipart_first_char ct Hp) as [_ Hc]. contradiction. }
  rewrite Read_run, Get_run, Ha. split; reflexivity.
Qed.

Lemma first_character_must_be_m_witness :
  Read.readMultipartFormData (scripted mixed_upload)
    {| headers := {[ "content-type" := "Multipart/Form-Data; boundary=x" ]};
       params := JUndefined; query := JUndefined; stream := [] |}
  = {| settled := Fulfilled None; piped := false |}
  /\ Get.getMultipartFormData (scripted mixed_upload')
       {| headers := {[ "content-type" := "Multipart/Form-Data; boundary=x" ]};
          params := JUndefined; query := JUndefined; stream := [] |}
     = {| settled := Fulfilled None; piped := false |}.
Proof.
  apply (first_character_must_be_m (scripted mixed_upload)
           (scripted mixed_upload')
           {| headers := {[ "content-type" := "Multipart/Form-Data; boundary=x" ]};
              params := JUndefined; query := JUndefined; stream := [] |}
           "Multipart/Form-Data; boundary=x").
  - reflexivity.
  - discriminate.
Defined.
